(** * FlipTrackr: the flip ledger engine

    A shallow embedding of the pure parts of FlipTrackr:
    - [computeTotals] and [computeWhatIfTotals] (src/unnamed/part_000),
    - the quick-entry parser [parseLineItem] with [evaluateMath] and
      [evaluateMultiplyDivide] (src/src/utils/parseLineItem.ts),
    - the tax report generators [generateTaxExportPDF] and
      [generateAllFlipsTaxReport] (src/unnamed/part_001),
    - the summary accumulation of [exportCompleteTaxReport]
      (src/src/screens/Settings.tsx),
    - the home screen's tabs, row titles and selection, and the database
      operations with [duplicateFlip] (src/unnamed/part_000,
      src/src/state/FlipsContext.tsx),
    - [getDaysToSell] (src/src/utils/dates.ts). *)

From Stdlib Require Import List Permutation String Ascii ZArith QArith Qpower Qround Qabs Qminmax Bool Lia Lqa.
Import ListNotations.

Open Scope list_scope.

(* ================================================================= *)
(** ** JavaScript numbers as seen by the quick-entry parser *)

(** A JS number is finite, an infinity or NaN.  A finite number is kept as
    the rational it denotes.  Every arithmetic result is rounded as IEEE
    binary64 arithmetic does: to the nearest value with a 53-bit significand
    and an exponent of at least -1074, ties to even; a result whose
    magnitude reaches 2^1024 - 2^970 becomes an infinity.  The sign of a
    zero is not kept. *)
Inductive num : Type :=
| Fin (q : Q)
| PosInf
| NegInf
| NaN.

Definition overflow_bound : Q := inject_Z (2 ^ 1024 - 2 ^ 970).

(** [2 ^ e] for an integer [e]. *)
Definition pow2 (e : Z) : Q := Qpower 2 e.

(** The [e] with [2 ^ e <= q < 2 ^ (e + 1)], for [q > 0]. *)
Definition Qlog2_floor (q : Q) : Z :=
  let e := (Z.log2 (Qnum q) - Z.log2 (Zpos (Qden q)))%Z in
  if Qle_bool (pow2 e) q then e else (e - 1)%Z.

(** The integer nearest to [x], ties to even. *)
Definition round_half_even (x : Q) : Z :=
  let f := Qfloor x in
  match Qcompare (x - inject_Z f) (1 # 2) with
  | Lt => f
  | Gt => (f + 1)%Z
  | Eq => if Z.even f then f else (f + 1)%Z
  end.

(** The binary64 value nearest to [q], ignoring overflow: [q] is scaled by
    the power of 2 that gives it 53 integer bits (or fewer, down to the
    smallest exponent -1074), rounded to an integer and scaled back. *)
Definition round_double (q : Q) : Q :=
  if Qeq_bool q 0 then 0
  else
    let e := Z.max (Qlog2_floor (Qabs q) - 52) (-1074) in
    inject_Z (round_half_even (q / pow2 e)) * pow2 e.

Definition fin (q : Q) : num :=
  if Qle_bool overflow_bound q then PosInf
  else if Qle_bool q (- overflow_bound) then NegInf
  else Fin (Qred (round_double q)).

Definition num_neg (x : num) : num :=
  match x with
  | Fin q => Fin (- q)
  | PosInf => NegInf
  | NegInf => PosInf
  | NaN => NaN
  end.

(** [x + y] *)
Definition num_add (x y : num) : num :=
  match x, y with
  | NaN, _ | _, NaN => NaN
  | PosInf, NegInf | NegInf, PosInf => NaN
  | PosInf, _ | _, PosInf => PosInf
  | NegInf, _ | _, NegInf => NegInf
  | Fin a, Fin b => fin (a + b)
  end.

(** [x - y] *)
Definition num_sub (x y : num) : num := num_add x (num_neg y).

(** Sign of a number: [Some true] positive, [Some false] negative,
    [None] zero or NaN. *)
Definition num_sign (x : num) : option bool :=
  match x with
  | Fin q => if Qeq_bool q 0 then None else Some (Qle_bool 0 q)
  | PosInf => Some true
  | NegInf => Some false
  | NaN => None
  end.

Definition signed_inf (pos : bool) : num := if pos then PosInf else NegInf.

(** [x * y] *)
Definition num_mul (x y : num) : num :=
  match x, y with
  | NaN, _ | _, NaN => NaN
  | Fin a, Fin b => fin (a * b)
  | _, _ =>
      match num_sign x, num_sign y with
      | Some sx, Some sy => signed_inf (Bool.eqb sx sy)
      | _, _ => NaN (* infinity times zero *)
      end
  end.

(** [x / y] *)
Definition num_div (x y : num) : num :=
  match x, y with
  | NaN, _ | _, NaN => NaN
  | Fin a, Fin b =>
      if Qeq_bool b 0 then
        match num_sign x with
        | Some sx => signed_inf sx
        | None => NaN
        end
      else fin (a / b)
  | Fin _, _ => Fin 0
  | _, Fin b =>
      match num_sign x, num_sign y with
      | Some sx, Some sy => signed_inf (Bool.eqb sx sy)
      | Some sx, None => signed_inf sx
      | _, _ => NaN
      end
  | _, _ => NaN (* infinity over infinity *)
  end.

(** [Math.round]: the closest integer, halves rounded towards +Infinity. *)
Definition math_round (x : num) : num :=
  match x with
  | Fin q => fin (inject_Z (Qfloor (q + (1 # 2))))
  | _ => x
  end.

Definition isNaN (x : num) : bool :=
  match x with NaN => true | _ => false end.

(** [x === 0] *)
Definition num_is_zero (x : num) : bool :=
  match x with Fin q => Qeq_bool q 0 | _ => false end.

(** [x <= 0] (false on NaN) *)
Definition num_le_zero (x : num) : bool :=
  match x with
  | Fin q => Qle_bool q 0
  | NegInf => true
  | _ => false
  end.

(* ================================================================= *)
(** ** Characters *)

(** Strings are sequences of Latin-1 code units. *)
Definition code (c : ascii) : nat := nat_of_ascii c.

(** [\s] and the characters removed by [String.prototype.trim]. *)
Definition is_ws (c : ascii) : bool :=
  let n := code c in
  ((9 <=? n) && (n <=? 13)) || (n =? 32) || (n =? 160).

Definition is_digit (c : ascii) : bool :=
  let n := code c in (48 <=? n) && (n <=? 57).

Definition is_addop (c : ascii) : bool :=
  Ascii.eqb c "+"%char || Ascii.eqb c "-"%char.

Definition is_mulop (c : ascii) : bool :=
  Ascii.eqb c "*"%char || Ascii.eqb c "/"%char.

(** [[0-9+\-*/.]] *)
Definition is_expr_char (c : ascii) : bool :=
  is_digit c || is_addop c || is_mulop c || Ascii.eqb c "."%char.

(** [[0-9+\-*/.\s]] *)
Definition is_amount_char (c : ascii) : bool := is_expr_char c || is_ws c.

(** [.]: any character but a line terminator. *)
Definition is_dot_char (c : ascii) : bool :=
  negb ((code c =? 10) || (code c =? 13)).

Fixpoint drop_ws (s : list ascii) : list ascii :=
  match s with
  | c :: r => if is_ws c then drop_ws r else s
  | [] => []
  end.

(** [String.prototype.trim] *)
Definition trim (s : list ascii) : list ascii := rev (drop_ws (rev (drop_ws s))).

(** [s.replace(/\s/g, '')] *)
Definition remove_ws (s : list ascii) : list ascii := filter (fun c => negb (is_ws c)) s.

(* ================================================================= *)
(** ** [parseFloat] and [split] *)

Fixpoint span (p : ascii -> bool) (s : list ascii) : list ascii * list ascii :=
  match s with
  | c :: r => if p c then let (a, b) := span p r in (c :: a, b) else ([], s)
  | [] => ([], [])
  end.

Definition digit_value (c : ascii) : Z := Z.of_nat (code c - 48).

Definition Z_of_digits (ds : list ascii) : Z :=
  fold_left (fun acc c => acc * 10 + digit_value c)%Z ds 0%Z.

(** The exact value of the decimal numeral [d1.d2]. *)
Definition decimal_value (d1 d2 : list ascii) : Q :=
  inject_Z (Z_of_digits (d1 ++ d2)) / inject_Z (10 ^ Z.of_nat (List.length d2)).

(** [parseFloat] on the strings [evaluateMultiplyDivide] hands it, which
    consist of digits and dots only: the longest prefix of the form
    [digits], [digits.digits?] or [.digits] is read and rounded to the
    nearest double, NaN if there is none. *)
Definition parseFloat (s : list ascii) : num :=
  let (d1, r1) := span is_digit s in
  match r1 with
  | c :: r2 =>
      if Ascii.eqb c "."%char then
        let (d2, _) := span is_digit r2 in
        match d1, d2 with
        | [], [] => NaN
        | _, _ => fin (decimal_value d1 d2)
        end
      else match d1 with [] => NaN | _ => fin (decimal_value d1 []) end
  | [] => match d1 with [] => NaN | _ => fin (decimal_value d1 []) end
  end.

(** [s.split(/([sep])/)]: the pieces between separators, with each
    separator kept as a one-character piece between them. *)
Fixpoint split_keep (sep : ascii -> bool) (cur : list ascii) (s : list ascii)
  : list (list ascii) :=
  match s with
  | [] => [rev cur]
  | c :: r =>
      if sep c then rev cur :: [c] :: split_keep sep [] r
      else split_keep sep (c :: cur) r
  end.

(* ================================================================= *)
(** ** [evaluateMultiplyDivide] and [evaluateMath] *)

Definition is_token (t : list ascii) (c : ascii) : bool :=
  match t with [d] => Ascii.eqb d c | _ => false end.

(** The loop [for (let i = 1; i < tokens.length; i += 2)]; a missing
    [tokens[i + 1]] reads as [parseFloat(undefined)], which is NaN. *)
Fixpoint md_loop (tokens : list (list ascii)) (result : num) : option num :=
  match tokens with
  | [] => Some result
  | [_] => None
  | op :: v :: rest =>
      let value := parseFloat v in
      if isNaN value then None
      else if is_token op "*"%char then md_loop rest (num_mul result value)
      else if is_token op "/"%char then
        if num_is_zero value then None (* Division by zero *)
        else md_loop rest (num_div result value)
      else md_loop rest result
  end.

Definition evaluateMultiplyDivide (expression : list ascii) : option num :=
  match split_keep is_mulop [] expression with
  | [] => None
  | t0 :: rest =>
      let result := parseFloat t0 in
      if isNaN result then None else md_loop rest result
  end.

(** The loop [for (const token of tokens)] with [currentOp]. *)
Fixpoint add_loop (tokens : list (list ascii)) (result : num) (currentOp : ascii)
  : option num :=
  match tokens with
  | [] => Some result
  | token :: rest =>
      if is_token token "+"%char then add_loop rest result "+"%char
      else if is_token token "-"%char then add_loop rest result "-"%char
      else
        match evaluateMultiplyDivide token with
        | None => None
        | Some value =>
            if Ascii.eqb currentOp "+"%char
            then add_loop rest (num_add result value) currentOp
            else add_loop rest (num_sub result value) currentOp
        end
  end.

(** [Math.round(result * 100) / 100] *)
Definition round2 (x : num) : num :=
  num_div (math_round (num_mul x (Fin 100))) (Fin 100).

Definition evaluateMath (expression : list ascii) : option num :=
  let cleaned := remove_ws expression in
  if negb (match cleaned with [] => false | _ => forallb is_expr_char cleaned end)
  then None
  else
    match add_loop (split_keep is_addop [] cleaned) (Fin 0) "+"%char with
    | None => None
    | Some result => Some (round2 result)
    end.

(* ================================================================= *)
(** ** The three quick-entry regular expressions *)

(** The patterns used by [parseLineItem] are sequences of single-character
    classes, each with a greedy quantifier and possibly a capture group,
    anchored by [^] and [$].  JavaScript's backtracking matcher tries the
    greedy repetition counts from the largest down, and the first success
    gives the captures. *)
Inductive quant : Type := One | Opt | Star | Plus.

Record atom : Type := mk_atom {
  a_class : ascii -> bool;
  a_quant : quant;
  a_capture : bool
}.

Fixpoint span_len (p : ascii -> bool) (s : list ascii) : nat :=
  match s with
  | c :: r => if p c then S (span_len p r) else O
  | [] => O
  end.

Definition max_reps (a : atom) (s : list ascii) : nat :=
  match a_quant a with
  | One | Opt => Nat.min 1 (span_len (a_class a) s)
  | Star | Plus => span_len (a_class a) s
  end.

Definition min_reps (a : atom) : nat :=
  match a_quant a with One | Plus => 1 | Opt | Star => 0 end.

Fixpoint match_atoms (atoms : list atom) (s : list ascii)
  : option (list (list ascii)) :=
  match atoms with
  | [] => match s with [] => Some [] | _ => None end
  | a :: rest =>
      let fix go (n : nat) : option (list (list ascii)) :=
        if n <? min_reps a then None
        else
          match match_atoms rest (skipn n s) with
          | Some caps => Some (if a_capture a then firstn n s :: caps else caps)
          | None => match n with O => None | S n' => go n' end
          end
      in go (max_reps a s)
  end.

Definition lit (c : ascii) (q : quant) : atom := mk_atom (Ascii.eqb c) q false.
Definition cls (p : ascii -> bool) (q : quant) : atom := mk_atom p q false.
Definition group (p : ascii -> bool) (q : quant) : atom := mk_atom p q true.

(** [/^\$?\s*([0-9+\-*/.\s]+)\s*-\s*(.+)$/] *)
Definition dollarPattern : list atom :=
  [lit "$"%char Opt; cls is_ws Star; group is_amount_char Plus; cls is_ws Star;
   lit "-"%char One; cls is_ws Star; group is_dot_char Plus].

(** [/^([0-9+\-*/.\s]+)\s+(.+)$/] *)
Definition numberPattern : list atom :=
  [group is_amount_char Plus; cls is_ws Plus; group is_dot_char Plus].

(** [/^([0-9+\-*/.\s]+)], then the group of [.*] up to [$/]. *)
Definition simplePattern : list atom :=
  [group is_amount_char Plus; group is_dot_char Star].

(* ================================================================= *)
(** ** [parseLineItem] *)

Inductive parse_result : Type :=
| Parsed (amount : num) (title : string)
| ParseError (error : string).

Definition msg_empty : string := "Input cannot be empty".
Definition msg_empty_title : string := "Title cannot be empty".
Definition msg_invalid_amount : string := "Invalid amount".
Definition msg_unparseable : string :=
  "Could not parse input. Try format: $190 - description".

(** The body shared by the first two patterns. *)
Definition finish_titled (amountStr titleStr : list ascii) : parse_result :=
  let amountStr := trim amountStr in
  let title := trim titleStr in
  match title with
  | [] => ParseError msg_empty_title
  | _ =>
      match evaluateMath amountStr with
      | None => ParseError msg_invalid_amount
      | Some amount =>
          if num_le_zero amount then ParseError msg_invalid_amount
          else Parsed amount (string_of_list_ascii title)
      end
  end.

(** The body of the third pattern, whose title defaults to ["Expense"]. *)
Definition finish_simple (amountStr titleStr : list ascii) : parse_result :=
  let amountStr := trim amountStr in
  let title :=
    match trim titleStr with
    | [] => "Expense"%string
    | t => string_of_list_ascii t
    end in
  match evaluateMath amountStr with
  | None => ParseError msg_invalid_amount
  | Some amount =>
      if num_le_zero amount then ParseError msg_invalid_amount
      else Parsed amount title
  end.

Definition parseLineItem (input : string) : parse_result :=
  let trimmed := trim (list_ascii_of_string input) in
  match trimmed with
  | [] => ParseError msg_empty
  | _ =>
      match match_atoms dollarPattern trimmed with
      | Some (a :: t :: _) => finish_titled a t
      | _ =>
          match match_atoms numberPattern trimmed with
          | Some (a :: t :: _) => finish_titled a t
          | _ =>
              match match_atoms simplePattern trimmed with
              | Some (a :: t :: _) => finish_simple a t
              | _ => ParseError msg_unparseable
              end
          end
      end
  end.

(* ================================================================= *)
(** ** Arithmetic expressions with binary operators

    The reference reading of an amount expression: decimal numerals
    combined by binary [*] and [/] into terms, and terms combined by binary
    [+] and [-], each level folded left to right with the first term added
    to 0.  Numerals denote the double nearest to their decimal value, and
    the operators are those of doubles, each result rounded to the nearest
    double. *)

Module Expr.



















End Expr.

(* ================================================================= *)
(** ** Data model (src/src/types/index.ts)

    Monetary values read from the store are modelled as exact rationals.
    Record fields keep the source's names; the line item's [id],
    [created_at] and [updated_at] carry an [item_] prefix because Rocq
    projections share one name space. *)

Inductive category : Type := Parts | Labor | Fees | Misc.

Record Flip : Type := mk_flip {
  id : Z;
  year : option Z;
  make : option string;
  model : option string;
  vin : option string;
  miles : option Z;
  buy_price : Q;
  sell_price : option Q;
  sold_date : option string;
  created_at : string;
  updated_at : string
}.

Record LineItem : Type := mk_item {
  item_id : Z;
  flip_id : Z;
  title : string;
  amount : Q;
  category_of : option category;
  date : option string;
  item_created_at : string;
  item_updated_at : string
}.

Record FlipTotals : Type := mk_totals {
  totalCost : Q;
  profit : Q;
  roi : Q
}.

(** [x > y] on numbers. *)
Definition Qgt_bool (x y : Q) : bool := negb (Qle_bool x y).

(** [x || 0] for a number [x]: 0 and NaN are falsy. *)
Definition or_zero (x : option Q) : Q :=
  match x with
  | Some q => if Qeq_bool q 0 then 0 else q
  | None => 0
  end.

(** [items.reduce((sum, item) => sum + item.amount, 0)] *)
Definition sum_amounts (items : list LineItem) : Q :=
  fold_left (fun sum item => sum + amount item) items 0.

(* ================================================================= *)
(** ** Totals Calculator: [computeTotals] (src/unnamed/part_000) *)

Inductive outcome (A : Type) : Type :=
| Ok (a : A)
| Throw (message : string).
Arguments Ok {A} a.
Arguments Throw {A} message.

(** [computeTotals(flipId)] after its two store reads: [flip] is the result
    of [getFlipById(flipId)] and [lineItems] of [getLineItemsByFlip(flipId)]. *)
Definition computeTotals (flip : option Flip) (lineItems : list LineItem)
  : outcome FlipTotals :=
  match flip with
  | None => Throw "Flip not found"
  | Some flip =>
      let totalCost := fold_left (fun sum item => sum + amount item) lineItems 0 in
      let sellPrice := or_zero (sell_price flip) in
      let profit := sellPrice - (buy_price flip + totalCost) in
      let investedAmount := buy_price flip + totalCost in
      let roi := if Qgt_bool investedAmount 0 then profit / investedAmount else 0 in
      Ok (mk_totals totalCost profit roi)
  end.

(** [computeWhatIfTotals] of the flip sheet.  Its inputs are the screen's
    state: [flip], the parsed buy-price field [buyPrice] ([None] when
    [parseFloat] gives NaN), the what-if sell-price field [whatIfSellPrice]
    ([None] when the field is empty, otherwise its parsed number) and the
    [totals] loaded by [computeTotals]. *)
Definition computeWhatIfTotals (flip : option Flip) (buyPrice : option Q)
    (whatIfSellPrice : option Q) (totals : FlipTotals) : FlipTotals :=
  let whatIfSellPriceNum :=
    match whatIfSellPrice with
    | Some s => s
    | None => match flip with Some f => or_zero (sell_price f) | None => 0 end
    end in
  let buyPriceNum :=
    match flip with
    | Some f => if Qeq_bool (buy_price f) 0 then or_zero buyPrice else buy_price f
    | None => or_zero buyPrice
    end in
  let totalCost := totalCost totals in
  let profit := whatIfSellPriceNum - (buyPriceNum + totalCost) in
  let investedAmount := buyPriceNum + totalCost in
  let roi := if Qgt_bool investedAmount 0 then profit / investedAmount else 0 in
  mk_totals totalCost profit roi.

(* ================================================================= *)
(** ** Aggregate summary of [exportCompleteTaxReport]
    (src/src/screens/Settings.tsx) *)

Record TaxSummary : Type := mk_summary {
  totalFlips : nat;
  totalProfit : Q;
  totalLoss : Q;
  netGainLoss : Q;
  totalExpenses : Q;
  totalSales : Q;
  totalPurchases : Q
}.

(** The loop variables [totalSales], [totalPurchases], [totalExpenses],
    [totalProfit] and [totalLoss]. *)
Record accumulators : Type := mk_acc {
  acc_sales : Q;
  acc_purchases : Q;
  acc_expenses : Q;
  acc_profit : Q;
  acc_loss : Q
}.

Definition summary_step (a : accumulators) (ft : Flip * FlipTotals) : accumulators :=
  let (flip, totals) := ft in
  let totalSales := acc_sales a + or_zero (sell_price flip) in
  let totalPurchases := acc_purchases a + buy_price flip in
  let totalExpenses := acc_expenses a + totalCost totals in
  if Qgt_bool (profit totals) 0
  then mk_acc totalSales totalPurchases totalExpenses
              (acc_profit a + profit totals) (acc_loss a)
  else mk_acc totalSales totalPurchases totalExpenses
              (acc_profit a) (acc_loss a + Qabs (profit totals)).

(** The summary built for a list of flips, each with the totals that
    [computeTotals] returned for it; [None] when there is no flip (the
    function alerts "No Data" and returns). *)
Definition export_summary (flips : list (Flip * FlipTotals)) : option TaxSummary :=
  match flips with
  | [] => None
  | _ =>
      let a := fold_left summary_step flips (mk_acc 0 0 0 0 0) in
      Some (mk_summary (List.length flips) (acc_profit a) (acc_loss a)
                       (acc_profit a - acc_loss a) (acc_expenses a)
                       (acc_sales a) (acc_purchases a))
  end.

(* ================================================================= *)
(** ** Report Generator (src/unnamed/part_001)

    Report text is a byte string (UTF-8, as the file is written).  The
    host-dependent formatters are parameters: [today] is
    [new Date().toLocaleDateString()], read when a report is generated;
    [formatCurrency] comes from [../utils/currency]; [localeDate s] is
    [new Date(s).toLocaleDateString()], [localeInt n] is
    [n.toLocaleString()] and [toFixed2 x] is [x.toFixed(2)]. *)

Record Formatting : Type := mk_formatting {
  formatCurrency : Q -> string;
  localeDate : string -> string;
  localeInt : Z -> string;
  toFixed2 : Q -> string
}.

Local Open Scope string_scope.

Definition nl : string := String (ascii_of_nat 10) "".
Definition tab : string := String (ascii_of_nat 9) "".

(** [c.repeat(n)] *)
Fixpoint repeat_str (s : string) (n : nat) : string :=
  match n with O => "" | S k => s ++ repeat_str s k end.

Fixpoint digits_of (fuel : nat) (n : N) (acc : string) : string :=
  match fuel with
  | O => acc
  | S f =>
      let acc' := String (ascii_of_N (48 + N.modulo n 10)) acc in
      if N.ltb n 10 then acc' else digits_of f (N.div n 10) acc'
  end.

(** [`${n}`] for an integer [n]. *)
Definition Z_to_string (z : Z) : string :=
  let n := Z.abs_N z in
  let s := digits_of (S (N.size_nat n)) n "" in
  if (z <? 0)%Z then "-" ++ s else s.

Definition nat_to_string (n : nat) : string := Z_to_string (Z.of_nat n).

Definition upper_char (c : ascii) : ascii :=
  let n := nat_of_ascii c in
  if Nat.leb 97 n && Nat.leb n 122 then ascii_of_nat (n - 32)%nat else c.

(** [s.toUpperCase()] on ASCII letters *)
Fixpoint to_upper (s : string) : string :=
  match s with
  | String c r => String (upper_char c) (to_upper r)
  | EmptyString => EmptyString
  end.

(** [s.charAt(0).toUpperCase() + s.slice(1)] *)
Definition capitalize (s : string) : string :=
  match s with
  | String c r => String (upper_char c) r
  | EmptyString => EmptyString
  end.

Definition category_name (c : category) : string :=
  match c with Parts => "parts" | Labor => "labor" | Fees => "fees" | Misc => "misc" end.

Definition category_eqb (c d : category) : bool :=
  match c, d with
  | Parts, Parts | Labor, Labor | Fees, Fees | Misc, Misc => true
  | _, _ => false
  end.

(** [const categories = ['parts', 'labor', 'fees', 'misc']] *)
Definition categories : list category := [Parts; Labor; Fees; Misc].

(** [item.category === category] *)
Definition in_category (c : category) (item : LineItem) : bool :=
  match category_of item with Some d => category_eqb c d | None => false end.

(** [!item.category] *)
Definition uncategorized (item : LineItem) : bool :=
  match category_of item with None => true | Some _ => false end.

(** Truthiness of optional strings and numbers. *)
Definition str_truthy (s : option string) : option string :=
  match s with Some "" | None => None | Some x => Some x end.
Definition int_truthy (z : option Z) : option Z :=
  match z with Some 0%Z | None => None | Some x => Some x end.

(** [[flip.year, flip.make, flip.model].filter(Boolean).join(' ')] *)
Definition name_parts (flip : Flip) : string :=
  String.concat " "
    (match int_truthy (year flip) with Some y => [Z_to_string y] | None => [] end ++
     match str_truthy (make flip) with Some m => [m] | None => [] end ++
     match str_truthy (model flip) with Some m => [m] | None => [] end).

(** [s || fallback] for a string [s]. *)
Definition or_default (s fallback : string) : string :=
  match s with "" => fallback | _ => s end.

(** The text accumulated by the successive [content += ...] statements. *)
Definition text_of (lines : list string) : string := fold_right append "" lines.

Definition line (s : string) : string := s ++ nl.

(** The [VIN:] and [Miles:] lines shared by both reports. *)
Definition vin_text (flip : Flip) : string :=
  match str_truthy (vin flip) with Some v => v | None => "Not provided" end.
Definition miles_text (fmt : Formatting) (flip : Flip) : string :=
  match int_truthy (miles flip) with Some m => localeInt fmt m | None => "Not provided" end.

(** *** [generateTaxExportPDF] *)

Record TaxExportData : Type := mk_tax_export {
  te_flip : Flip;
  te_lineItems : list LineItem;
  te_totals : FlipTotals;
  te_taxYear : Z
}.

(** The rows of the DETAILED EXPENSES listing after the purchase row: the
    loop over [categories] (a category's rows only when [categoryItems] is
    non-empty), then the items without category, labelled [misc].  A row
    is the label [`${category || 'misc'}`] with its item. *)
Definition expense_listing (lineItems : list LineItem) : list (string * LineItem) :=
  flat_map (fun c =>
              let categoryItems := filter (in_category c) lineItems in
              if Nat.ltb 0 (List.length categoryItems)
              then map (fun item => (category_name c, item)) categoryItems
              else [])
           categories
  ++ map (fun item => ("misc", item)) (filter uncategorized lineItems).

Definition expense_row (fmt : Formatting) (row : string * LineItem) : string :=
  let (label, item) := row in
  let date := match date item with
              | Some "" | None => "Not specified"
              | Some d => localeDate fmt d
              end in
  line (label ++ tab ++ tab ++ title item ++ tab ++ tab ++
        formatCurrency fmt (amount item) ++ tab ++ tab ++ date).

(** The EXPENSE SUMMARY BY CATEGORY entries: a subtotal line for each
    category with at least one item, in the order of [categories], then
    [Miscellaneous] when [uncategorizedTotal > 0]. *)
Definition category_summary (lineItems : list LineItem) : list (string * Q) :=
  flat_map (fun c =>
              let categoryItems := filter (in_category c) lineItems in
              if Nat.ltb 0 (List.length categoryItems)
              then [(capitalize (category_name c), sum_amounts categoryItems)]
              else [])
           categories
  ++ (let uncategorizedTotal := sum_amounts (filter uncategorized lineItems) in
      if Qgt_bool uncategorizedTotal 0
      then [("Miscellaneous", uncategorizedTotal)] else []).

Definition summary_line (fmt : Formatting) (entry : string * Q) : string :=
  line (fst entry ++ ": " ++ formatCurrency fmt (snd entry)).

(** The pieces appended to [content], in order. *)
Definition tax_export_lines (fmt : Formatting) (today : string)
    (data : TaxExportData) : list string :=
  let flip := te_flip data in
  let lineItems := te_lineItems data in
  let totals := te_totals data in
  let displayName := or_default (name_parts flip) "Vehicle Flip" in
  let shortTermGain :=
    match str_truthy (sold_date flip) with Some _ => profit totals | None => 0 end in
  (
    [line "TAX REPORT - VEHICLE FLIP";
     line ("Generated: " ++ today);
     line ("Tax Year: " ++ Z_to_string (te_taxYear data));
     line (repeat_str "=" 33) ++ nl;
     line "VEHICLE INFORMATION:";
     line ("Vehicle: " ++ displayName);
     line ("VIN: " ++ vin_text flip);
     line ("Miles: " ++ miles_text fmt flip);
     line ("Purchase Date: " ++ localeDate fmt (created_at flip))] ++
    match str_truthy (sold_date flip) with
    | Some d => [line ("Sale Date: " ++ localeDate fmt d)]
    | None => []
    end ++
    [nl;
     line "FINANCIAL SUMMARY:";
     line ("Purchase Price: " ++ formatCurrency fmt (buy_price flip));
     line ("Sale Price: " ++ formatCurrency fmt (or_zero (sell_price flip)));
     line ("Total Expenses: " ++ formatCurrency fmt (totalCost totals));
     line ("Total Investment: " ++ formatCurrency fmt (buy_price flip + totalCost totals));
     line ("Gross Profit/Loss: " ++ formatCurrency fmt (profit totals));
     line ("ROI: " ++ toFixed2 fmt (roi totals * 100) ++ "%");
     nl;
     line "TAX IMPLICATIONS:";
     line "Classification: Short-term Capital Gain/Loss (assuming held < 1 year)";
     line ("Taxable Amount: " ++ formatCurrency fmt shortTermGain);
     line "Note: Consult your tax professional for proper treatment";
     nl;
     line "DETAILED EXPENSES:";
     line ("Category" ++ tab ++ tab ++ "Description" ++ tab ++ tab ++ tab ++
           "Amount" ++ tab ++ tab ++ "Date");
     line (repeat_str "=" 80);
     line ("Purchase" ++ tab ++ tab ++ "Vehicle Purchase" ++ tab ++ tab ++
           formatCurrency fmt (buy_price flip) ++ tab ++ localeDate fmt (created_at flip))] ++
    map (expense_row fmt) (expense_listing lineItems) ++
    [line (repeat_str "=" 80);
     line ("TOTAL EXPENSES: " ++ formatCurrency fmt (totalCost totals));
     nl;
     line "EXPENSE SUMMARY BY CATEGORY:"] ++
    map (summary_line fmt) (category_summary lineItems) ++
    [nl;
     line "IMPORTANT NOTES:";
     line "- This report is for tax preparation purposes";
     line "- Consult with a qualified tax professional";
     line "- Keep all receipts and supporting documentation";
     line "- Vehicle flipping may require business license in some jurisdictions";
     line "- Consider quarterly estimated tax payments for significant gains"]).

Definition generateTaxExportPDF (fmt : Formatting) (today : string)
    (data : TaxExportData) : string :=
  text_of (tax_export_lines fmt today data).

(** *** [generateAllFlipsTaxReport] *)

Record FlipData : Type := mk_flip_data {
  fd_flip : Flip;
  fd_lineItems : list LineItem;
  fd_totals : FlipTotals
}.

Record AllFlipsTaxData : Type := mk_all_flips {
  af_flips : list FlipData;
  af_taxYear : Z;
  af_summary : TaxSummary
}.

Definition bullet_line (fmt : Formatting) (item : LineItem) : string :=
  let date := match date item with
              | Some "" | None => localeDate fmt (item_created_at item)
              | Some d => localeDate fmt d
              end in
  line ("  • " ++ title item ++ ": " ++ formatCurrency fmt (amount item) ++
        " (" ++ date ++ ")").

(** The EXPENSE BREAKDOWN of one vehicle. *)
Definition breakdown_lines (fmt : Formatting) (lineItems : list LineItem) : list string :=
  match lineItems with
  | [] => []
  | _ =>
      [nl ++ line "EXPENSE BREAKDOWN:"] ++
      flat_map (fun c =>
                  let categoryItems := filter (in_category c) lineItems in
                  if Nat.ltb 0 (List.length categoryItems)
                  then line (nl ++ to_upper (category_name c) ++ ": " ++
                             formatCurrency fmt (sum_amounts categoryItems))
                       :: map (bullet_line fmt) categoryItems
                  else [])
               categories ++
      (let uncategorized := filter uncategorized lineItems in
       match uncategorized with
       | [] => []
       | _ => line (nl ++ "MISCELLANEOUS: " ++
                    formatCurrency fmt (sum_amounts uncategorized))
              :: map (bullet_line fmt) uncategorized
       end)
  end.

(** The body of [flips.forEach((flipData, index) => ...)]. *)
Definition vehicle_lines (fmt : Formatting) (index : nat) (flipData : FlipData)
  : list string :=
  let flip := fd_flip flipData in
  let totals := fd_totals flipData in
  let displayName :=
    or_default (name_parts flip) ("Vehicle " ++ nat_to_string (S index)) in
  [line (nl ++ "VEHICLE " ++ nat_to_string (S index) ++ ": " ++ displayName);
   line (repeat_str "-" 50);
   line ("Purchase Date: " ++ localeDate fmt (created_at flip));
   line ("Sale Date: " ++ match str_truthy (sold_date flip) with
                         | Some d => localeDate fmt d
                         | None => "Not sold"
                         end);
   line ("VIN: " ++ vin_text flip);
   line ("Miles: " ++ miles_text fmt flip);
   line (nl ++ "FINANCIALS:");
   line ("Purchase Price: " ++ formatCurrency fmt (buy_price flip));
   line ("Sale Price: " ++ formatCurrency fmt (or_zero (sell_price flip)));
   line ("Operating Expenses: " ++ formatCurrency fmt (totalCost totals));
   line ("Total Investment: " ++ formatCurrency fmt (buy_price flip + totalCost totals));
   line ("Profit/Loss: " ++ formatCurrency fmt (profit totals));
   line ("ROI: " ++ toFixed2 fmt (roi totals * 100) ++ "%")] ++
  breakdown_lines fmt (fd_lineItems flipData) ++
  [line (nl ++ repeat_str "=" 80)].

Fixpoint vehicles_lines (fmt : Formatting) (index : nat) (flips : list FlipData)
  : list string :=
  match flips with
  | [] => []
  | fd :: rest => vehicle_lines fmt index fd ++ vehicles_lines fmt (S index) rest
  end.

(** [allExpenses[category] = (allExpenses[category] || 0) + item.amount] on
    a record whose string keys enumerate in insertion order. *)
Fixpoint record_add (m : list (string * Q)) (k : string) (v : Q) : list (string * Q) :=
  match m with
  | [] => [(k, 0 + v)]
  | (k', x) :: r =>
      if String.eqb k k' then (k', or_zero (Some x) + v) :: r
      else (k', x) :: record_add r k v
  end.

(** [item.category || 'misc'] *)
Definition expense_key (item : LineItem) : string :=
  match category_of item with Some c => category_name c | None => "misc" end.

(** [Object.entries(allExpenses)] after the two nested [forEach] loops. *)
Definition combined_expenses (flips : list FlipData) : list (string * Q) :=
  fold_left (fun m fd =>
               fold_left (fun m item => record_add m (expense_key item) (amount item))
                         (fd_lineItems fd) m)
            flips [].

Definition combined_line (fmt : Formatting) (entry : string * Q) : string :=
  line (capitalize (fst entry) ++ ": " ++ formatCurrency fmt (snd entry)).

(** The pieces appended to [content], in order. *)
Definition all_flips_lines (fmt : Formatting) (today : string)
    (data : AllFlipsTaxData) : list string :=
  let summary := af_summary data in
  (
    [line "COMPLETE TAX REPORT - ALL VEHICLE FLIPS";
     line ("Generated: " ++ today);
     line ("Tax Year: " ++ Z_to_string (af_taxYear data));
     line (repeat_str "=" 65) ++ nl;
     line "EXECUTIVE SUMMARY:";
     line ("Total Vehicles Flipped: " ++ nat_to_string (totalFlips summary));
     line ("Total Sales Revenue: " ++ formatCurrency fmt (totalSales summary));
     line ("Total Purchase Cost: " ++ formatCurrency fmt (totalPurchases summary));
     line ("Total Operating Expenses: " ++ formatCurrency fmt (totalExpenses summary));
     line ("Net Gain/Loss: " ++ formatCurrency fmt (netGainLoss summary));
     nl;
     line "TAX TREATMENT:";
     line "Business Activity: Vehicle Flipping/Resale";
     line "Classification: Short-term Capital Gains (vehicles typically held < 1 year)";
     line "Schedule: Report on Schedule D (Capital Gains and Losses)";
     line "Self-Employment: May require Schedule C if this is a business activity";
     nl;
     line "DETAILED VEHICLE-BY-VEHICLE BREAKDOWN:";
     line (repeat_str "=" 80)] ++
    vehicles_lines fmt 0 (af_flips data) ++
    [line (nl ++ "COMBINED EXPENSE SUMMARY BY CATEGORY:")] ++
    map (combined_line fmt) (combined_expenses (af_flips data)) ++
    [line (nl ++ "TAX PREPARATION CHECKLIST:");
     line "□ Keep all purchase receipts and contracts";
     line "□ Keep all sale receipts and contracts";
     line "□ Keep all receipts for parts, labor, and fees";
     line "□ Document any business mileage related to vehicle viewing/transport";
     line "□ Consider if this activity requires a business license";
     line "□ Determine if you need to make quarterly estimated tax payments";
     line "□ Consult with a tax professional for proper classification";
     line "□ Consider Schedule C filing if this is a regular business activity";
     line (nl ++ "IMPORTANT TAX NOTES:");
     line "• This report is for tax preparation purposes only";
     line "• Vehicle flipping may be considered business income vs. capital gains";
     line "• Consult with a qualified tax professional";
     line "• Keep detailed records and receipts for all transactions";
     line "• Consider sales tax obligations in your state";
     line "• Some states require dealer licenses for multiple vehicle sales";
     line "• Report all gains - the IRS may have records of vehicle sales"]).

Definition generateAllFlipsTaxReport (fmt : Formatting) (today : string)
    (data : AllFlipsTaxData) : string :=
  text_of (all_flips_lines fmt today data).

Local Close Scope string_scope.

(* ================================================================= *)
(** ** Specification-side notions used in the statements *)

(** [Σ amount] over a list of line items. *)
Definition total_amount (items : list LineItem) : Q :=
  fold_right (fun item s => amount item + s) 0 items.

(** Keys in order of first occurrence. *)
Fixpoint first_occurrences (ks : list string) : list string :=
  match ks with
  | [] => []
  | k :: r => k :: filter (fun k' => negb (String.eqb k k')) (first_occurrences r)
  end.

(** A sell price read as 0 when absent. *)
Definition sell_or_absent_zero (f : Flip) : Q :=
  match sell_price f with Some s => s | None => 0 end.

(** The flip with its sell price replaced. *)
Definition with_sell_price (f : Flip) (s : Q) : Flip :=
  mk_flip (id f) (year f) (make f) (model f) (vin f) (miles f) (buy_price f)
          (Some s) (sold_date f) (created_at f) (updated_at f).

(** [Σ g] over a list of flips with their totals. *)
Definition sum_flips (g : Flip * FlipTotals -> Q) (l : list (Flip * FlipTotals)) : Q :=
  fold_right (fun ft s => g ft + s) 0 l.

(** All line items of a list of flips, in order. *)
Definition all_items (flips : list FlipData) : list LineItem :=
  flat_map fd_lineItems flips.

(** [Σ amount] over the items filed under the key [k]. *)
Definition key_total (k : string) (items : list LineItem) : Q :=
  total_amount (filter (fun item => String.eqb (expense_key item) k) items).

(** The amount segment captured by the first quick-entry pattern that
    matches the trimmed input, as [parseLineItem] dispatches. *)
Definition matched_amount (input : string) : option (list ascii) :=
  let trimmed := trim (list_ascii_of_string input) in
  match trimmed with
  | [] => None
  | _ =>
      match match_atoms dollarPattern trimmed with
      | Some (a :: _ :: _) => Some a
      | _ =>
          match match_atoms numberPattern trimmed with
          | Some (a :: _ :: _) => Some a
          | _ =>
              match match_atoms simplePattern trimmed with
              | Some (a :: _ :: _) => Some a
              | _ => None
              end
          end
      end
  end.

(** A numeral of value zero: a non-empty run of [0] and [.] with a [0]. *)
Definition zero_numeral (z : list ascii) : bool :=
  match z with
  | [] => false
  | _ => forallb (fun c => Ascii.eqb c "0"%char || Ascii.eqb c "."%char) z &&
         existsb (fun c => Ascii.eqb c "0"%char) z
  end.

Definition is_op (c : ascii) : bool := is_addop c || is_mulop c.

(** After whitespace removal, the segment divides by a zero numeral that
    ends the segment or is followed by an operator. *)
Definition divides_by_zero (seg : list ascii) : Prop :=
  exists p z s,
    remove_ws seg = p ++ "/"%char :: z ++ s /\ zero_numeral z = true /\
    match s with [] => True | c :: _ => is_op c = true end.

(** The numeral [1] followed by [n] zeros. *)
Fixpoint zeros (n : nat) : string :=
  match n with O => EmptyString | S k => String "0"%char (zeros k) end.

Definition one_e (n : nat) : string := String "1"%char (zeros n).

(** *** Sample data: the demo flip of [loadSampleData] *)

Definition sample_flip : Flip :=
  mk_flip 1 (Some 2011%Z) (Some "BMW"%string) (Some "328i"%string) None
          (Some 155000%Z) 3500 (Some 6200) (Some "2025-06-01T00:00:00.000Z"%string)
          "2025-03-01T00:00:00.000Z"%string "2025-06-01T00:00:00.000Z"%string.

Definition sample_item (i : Z) (t : string) (a : Q) (c : option category) : LineItem :=
  mk_item i 1 t a c None "2025-03-02T00:00:00.000Z"%string "2025-03-02T00:00:00.000Z"%string.

Definition sample_items : list LineItem :=
  [sample_item 1 "Brake pads" 180 (Some Parts);
   sample_item 2 "Detailing" 120 (Some Labor);
   sample_item 3 "Spark plugs" 60 (Some Parts);
   sample_item 4 "Registration" 85 None].

Definition sample_totals : FlipTotals :=
  match computeTotals (Some sample_flip) sample_items with
  | Ok t => t
  | Throw _ => mk_totals 0 0 0
  end.

(** An en-US style formatting, e.g. [formatCurrency 6200 = "$6200"]. *)
Definition sample_formatting : Formatting :=
  mk_formatting (fun q => ("$" ++ Z_to_string (Qfloor q))%string)
                (fun s => s) Z_to_string (fun q => Z_to_string (Qfloor q)).

Definition sample_export : TaxExportData :=
  mk_tax_export sample_flip sample_items sample_totals 2025.

(** Three flips whose profits are 100, -50 and 30. *)
Definition plain_flip (i : Z) (buy sell : Q) : Flip :=
  mk_flip i None None None None None buy (Some sell) None
          "2025-01-01T00:00:00.000Z"%string "2025-01-01T00:00:00.000Z"%string.

Definition example_flips : list (Flip * FlipTotals) :=
  [(plain_flip 1 1000 1150, mk_totals 50 100 (100 / 1050));
   (plain_flip 2 2000 2000, mk_totals 50 (-50) (-50 / 2050));
   (plain_flip 3 500 600, mk_totals 70 30 (30 / 570))].

Definition example_summary : TaxSummary :=
  Eval vm_compute in
    match export_summary example_flips with
    | Some s => s
    | None => mk_summary 0 0 0 0 0 0 0
    end.

(* ================================================================= *)
(** ** Home screen: tabs, names and selection (src/unnamed/part_000) *)

Inductive tab_kind : Type := OpenTab | SoldTab.

(** [!!flip.sold_date] *)
Definition is_sold (flip : Flip) : bool :=
  match str_truthy (sold_date flip) with Some _ => true | None => false end.

(** [flips.filter(flip =>
      selectedTab === 'sold' ? !!flip.sold_date : !flip.sold_date)] *)
Definition filteredFlips (selectedTab : tab_kind) (flips : list Flip) : list Flip :=
  filter (fun flip =>
            match selectedTab with
            | SoldTab => is_sold flip
            | OpenTab => negb (is_sold flip)
            end) flips.

(** The title of a row of the flip list. *)
Definition home_displayName (item : Flip) : string :=
  or_default (name_parts item) "Untitled Flip"%string.

(** A [Set<number>] as the list of its elements in insertion order. *)
Definition set_has (s : list Z) (x : Z) : bool := existsb (Z.eqb x) s.
Definition set_add (s : list Z) (x : Z) : list Z :=
  if set_has s x then s else s ++ [x].
Definition set_delete (s : list Z) (x : Z) : list Z :=
  filter (fun y => negb (Z.eqb y x)) s.

(** [new Set(xs)] *)
Definition set_of_list (xs : list Z) : list Z := fold_left set_add xs [].

(** [toggleFlipSelection(flipId)]: the new value of [selectedFlips]. *)
Definition toggleFlipSelection (selectedFlips : list Z) (flipId : Z) : list Z :=
  let newSelected := selectedFlips in
  if set_has newSelected flipId
  then set_delete newSelected flipId
  else set_add newSelected flipId.

(** [selectAllFlips()]: the new value of [selectedFlips]. *)
Definition selectAllFlips (filteredFlips : list Flip) : list Z :=
  let allVisibleFlips := map id filteredFlips in
  set_of_list allVisibleFlips.

(* ================================================================= *)
(** ** The local database (src/unnamed/part_000, src/src/db/schema.ts)

    The two tables hold their rows in rowid order.  Both ids are
    [INTEGER PRIMARY KEY AUTOINCREMENT]: a new row gets one more than the
    largest id the table has ever used, kept in [sqlite_sequence]
    ([flips_seq], [items_seq]).  [now] is the [new Date().toISOString()]
    read by the operation. *)

Record Store : Type := mk_store {
  flips_tbl : list Flip;
  items_tbl : list LineItem;
  flips_seq : Z;
  items_seq : Z
}.

(** The argument of [createFlip]: [Omit<Flip, 'id' | 'created_at' | 'updated_at'>]. *)
Record NewFlip : Type := mk_new_flip {
  nf_year : option Z;
  nf_make : option string;
  nf_model : option string;
  nf_vin : option string;
  nf_miles : option Z;
  nf_buy_price : Q;
  nf_sell_price : option Q;
  nf_sold_date : option string
}.

(** The argument of [addLineItem]: [Omit<LineItem, 'id' | 'created_at' | 'updated_at'>]. *)
Record NewLineItem : Type := mk_new_item {
  ni_flip_id : Z;
  ni_title : string;
  ni_amount : Q;
  ni_category : option category;
  ni_date : option string
}.

(** [x || null] for a number [x]. *)
Definition num_truthy (x : option Q) : option Q :=
  match x with
  | Some q => if Qeq_bool q 0 then None else Some q
  | None => None
  end.

(** [createFlip(flip)]: the [lastInsertRowId] and the new store. *)
Definition createFlip (now : string) (flip : NewFlip) (st : Store) : Z * Store :=
  let newId := (flips_seq st + 1)%Z in
  let row := mk_flip newId (int_truthy (nf_year flip)) (str_truthy (nf_make flip))
               (str_truthy (nf_model flip)) (str_truthy (nf_vin flip))
               (int_truthy (nf_miles flip)) (nf_buy_price flip)
               (num_truthy (nf_sell_price flip)) (str_truthy (nf_sold_date flip))
               now now in
  (newId, mk_store (flips_tbl st ++ [row]) (items_tbl st) newId (items_seq st)).

(** [getFlipById(id)]: [SELECT * FROM flips WHERE id = ?], first row. *)
Definition getFlipById (fid : Z) (st : Store) : option Flip :=
  find (fun f => Z.eqb (id f) fid) (flips_tbl st).

(** [deleteFlip(id)].  The [ON DELETE CASCADE] of [line_items] acts only
    when the connection enforces foreign keys, which [fk] says. *)
Definition deleteFlip (fk : bool) (fid : Z) (st : Store) : Store :=
  mk_store (filter (fun f => negb (Z.eqb (id f) fid)) (flips_tbl st))
           (if fk then filter (fun it => negb (Z.eqb (flip_id it) fid)) (items_tbl st)
            else items_tbl st)
           (flips_seq st) (items_seq st).

(** [addLineItem(lineItem)]: the [lastInsertRowId] and the new store. *)
Definition addLineItem (now : string) (lineItem : NewLineItem) (st : Store) : Z * Store :=
  let newId := (items_seq st + 1)%Z in
  let row := mk_item newId (ni_flip_id lineItem) (ni_title lineItem)
               (ni_amount lineItem) (ni_category lineItem)
               (str_truthy (ni_date lineItem)) now now in
  (newId, mk_store (flips_tbl st) (items_tbl st ++ [row]) (flips_seq st) newId).

(** [getLineItemsByFlip(flipId)]: the rows with that [flip_id], put by
    [order] in the order of [ORDER BY created_at ASC]. *)
Definition getLineItemsByFlip (order : list LineItem -> list LineItem) (flipId : Z)
    (st : Store) : list LineItem :=
  order (filter (fun it => Z.eqb (flip_id it) flipId) (items_tbl st)).

(** [computeTotals(flipId)] with its two reads. *)
Definition computeTotals_in_store (order : list LineItem -> list LineItem) (flipId : Z)
    (st : Store) : outcome FlipTotals :=
  computeTotals (getFlipById flipId st) (getLineItemsByFlip order flipId st).

(** The loop of [handleBulkDelete]: [for (const flipId of selectedFlips)
    await deleteFlip(flipId)]. *)
Definition bulkDelete (fk : bool) (selectedFlips : list Z) (st : Store) : Store :=
  fold_left (fun st flipId => deleteFlip fk flipId st) selectedFlips st.

(** The loop of [duplicateFlip] copying the line items; the [k]-th write
    of the call reads the clock [now_at k]. *)
Fixpoint copy_line_items (now_at : nat -> string) (k : nat) (newFlipId : Z)
    (lineItems : list LineItem) (st : Store) : Store :=
  match lineItems with
  | [] => st
  | item :: rest =>
      let st' := snd (addLineItem (now_at k)
                        (mk_new_item newFlipId (title item) (amount item)
                                     (category_of item) (date item)) st) in
      copy_line_items now_at (S k) newFlipId rest st'
  end.

(** [duplicateFlip(id)] of the flips context (src/src/state/FlipsContext.tsx):
    the new flip's id and the store after it. *)
Definition duplicateFlip (order : list LineItem -> list LineItem)
    (now_at : nat -> string) (fid : Z) (st : Store) : outcome (Z * Store) :=
  match getFlipById fid st with
  | None => Throw "Flip not found"%string
  | Some originalFlip =>
      let lineItems := getLineItemsByFlip order fid st in
      let (newFlipId, st1) :=
        createFlip (now_at O)
          (mk_new_flip (year originalFlip) (make originalFlip) (model originalFlip)
                       (vin originalFlip) (miles originalFlip)
                       (buy_price originalFlip) None None) st in
      Ok (newFlipId, copy_line_items now_at 1 newFlipId lineItems st1)
  end.

(** *** [updateFlip] and [updateLineItem]: the statement and its values *)

Inductive js_value : Type :=
| JNum (q : Q)
| JStr (s : string)
| JNull
| JUndefined.

(** The body shared by both functions, on [Object.entries] of the
    partial record: the SQL text and the bound values. *)
Definition build_update (table : string) (excluded : list string)
    (entries : list (string * js_value)) (now : string) (id : Z)
    : string * list js_value :=
  let kept := filter (fun kv => negb (existsb (String.eqb (fst kv)) excluded)) entries in
  let fields := map (fun kv => (fst kv ++ " = ?")%string) kept ++ ["updated_at = ?"%string] in
  let values := map snd kept ++ [JStr now; JNum (inject_Z id)] in
  (("UPDATE " ++ table ++ " SET " ++ String.concat ", " fields ++ " WHERE id = ?")%string,
   values).

Definition updateFlip (now : string) (id : Z) (flip : list (string * js_value))
    : string * list js_value :=
  build_update "flips" ["id"; "created_at"]%string flip now id.

Definition updateLineItem (now : string) (id : Z) (lineItem : list (string * js_value))
    : string * list js_value :=
  build_update "line_items" ["id"; "flip_id"; "created_at"]%string lineItem now id.

Fixpoint count_char (c : ascii) (s : string) : nat :=
  match s with
  | EmptyString => O
  | String d r => if Ascii.eqb c d then S (count_char c r) else count_char c r
  end.

(* ================================================================= *)
(** ** [getDaysToSell] (src/src/utils/dates.ts) *)

(** [Math.ceil] *)
Definition math_ceil (x : num) : num :=
  match x with
  | Fin q => fin (inject_Z (Qceiling q))
  | _ => x
  end.

(** [getTime s] is [new Date(s).getTime()], NaN for a date it cannot read. *)
Definition getDaysToSell (getTime : string -> num) (createdAt : string)
    (soldDate : option string) : option num :=
  match str_truthy soldDate with
  | None => None
  | Some soldDate =>
      let diffTime := num_sub (getTime soldDate) (getTime createdAt) in
      Some (math_ceil (num_div diffTime (Fin (inject_Z (1000 * 60 * 60 * 24)))))
  end.

(** Every flip id is at most [flips_seq]. *)
Definition flip_ids_below (st : Store) : Prop :=
  Forall (fun f => (id f <= flips_seq st)%Z) (flips_tbl st).

(** Every line item belongs to a flip id at most [flips_seq]. *)
Definition item_flips_below (st : Store) : Prop :=
  Forall (fun it => (flip_id it <= flips_seq st)%Z) (items_tbl st).

(** What [duplicateFlip] copies of a line item, with its date as stored. *)
Definition item_content (it : LineItem) : string * Q * option category * option string :=
  (title it, amount it, category_of it, str_truthy (date it)).

(** The shape of every successful parse. *)
Definition good_parse (amount : num) (title : string) : Prop :=
  title <> ""%string /\
  trim (list_ascii_of_string title) = list_ascii_of_string title /\
  ((exists q, amount = Fin q /\ 0 < q) \/ amount = PosInf \/ amount = NaN).


(** *** Sample data for the store and the dates *)

(** The demo flip and its four line items, as [loadSampleData] leaves them. *)
Definition sample_store : Store := mk_store [sample_flip] sample_items 1 4.

Definition sample_clock (k : nat) : string := "2025-07-01T00:00:00.000Z"%string.

(** A new flip whose model, miles, sell price and sold date are falsy. *)
Definition sample_new_flip : NewFlip :=
  mk_new_flip (Some 2015%Z) (Some "Honda"%string) (Some ""%string) None (Some 0%Z)
              4000 (Some 0) (Some ""%string).

Definition sample_new_item : NewLineItem :=
  mk_new_item 1 "Oil change"%string 45 (Some Parts) (Some ""%string).

(** [new Date(s).getTime()] on the two dates of the demo flip. *)
Definition sample_getTime (s : string) : num :=
  if String.eqb s "2025-03-01T00:00:00.000Z"%string then Fin (inject_Z 1740787200000)
  else if String.eqb s "2025-06-01T00:00:00.000Z"%string then Fin (inject_Z 1748736000000)
  else NaN.


(* ================================================================= *)
(** ** Proofs *)

(** *** Sums *)

Lemma fold_amounts_eq : forall (l : list LineItem) (a : Q),
  fold_left (fun sum item => sum + amount item) l a == a + total_amount l.
Proof.
  induction l as [|x l IH]; intros a; simpl.
  - ring.
  - rewrite IH. ring.
Qed.

Lemma sum_amounts_eq : forall l, sum_amounts l == total_amount l.
Proof. intros l. unfold sum_amounts. rewrite fold_amounts_eq. ring. Qed.

Lemma or_zero_eq : forall s : option Q,
  or_zero s == match s with Some q => q | None => 0 end.
Proof.
  intros [q|]; simpl; [|reflexivity].
  destruct (Qeq_bool q 0) eqn:E; [|reflexivity].
  apply Qeq_bool_iff in E. rewrite E. reflexivity.
Qed.

Lemma Qgt_bool_true : forall x y, Qgt_bool x y = true <-> y < x.
Proof.
  intros x y. unfold Qgt_bool. rewrite negb_true_iff.
  split.
  - intros H. apply Qnot_le_lt. intros H'. apply Qle_bool_iff in H'. congruence.
  - intros H. destruct (Qle_bool x y) eqn:E; [|reflexivity].
    apply Qle_bool_iff in E. exfalso. apply (Qlt_not_le _ _ H E).
Qed.

Lemma Qgt_bool_false : forall x y, Qgt_bool x y = false <-> x <= y.
Proof.
  intros x y. unfold Qgt_bool. rewrite negb_false_iff. apply Qle_bool_iff.
Qed.

(** The ROI rule [investedAmount > 0 ? profit / investedAmount : 0], stated
    up to the equality of rationals. *)
Definition roi_rule (p i r : Q) : Prop :=
  (0 < i -> r == p / i) /\ (i <= 0 -> r == 0).

Lemma roi_rule_intro : forall p p' i i',
  p == p' -> i == i' ->
  roi_rule p' i' (if Qgt_bool i 0 then p / i else 0).
Proof.
  intros p p' i i' Hp Hi. split; intros H.
  - assert (E : Qgt_bool i 0 = true) by (apply Qgt_bool_true; rewrite Hi; exact H).
    rewrite E, Hp, Hi. reflexivity.
  - assert (E : Qgt_bool i 0 = false) by (apply Qgt_bool_false; rewrite Hi; exact H).
    rewrite E. reflexivity.
Qed.

(** *** Totals Calculator *)

(** C1: for a flip with buy price [B] and sell price [S] (0 when absent)
    and line items whose amounts sum to [T], [computeTotals] returns
    [totalCost = T], [profit = S - (B + T)] and [roi = profit / (B + T)]
    when [B + T > 0], [roi = 0] otherwise; with no line items the total
    cost is exactly the initial 0 of the sum. *)
Theorem computeTotals_correct : forall (f : Flip) (lineItems : list LineItem),
  exists t : FlipTotals,
    computeTotals (Some f) lineItems = Ok t /\
    totalCost t == total_amount lineItems /\
    profit t == sell_or_absent_zero f - (buy_price f + total_amount lineItems) /\
    roi_rule (profit t) (buy_price f + total_amount lineItems) (roi t) /\
    (lineItems = [] -> totalCost t = 0).
Proof.
  intros f lineItems. eexists. split; [reflexivity|]. simpl.
  assert (HT := fold_amounts_eq lineItems 0).
  assert (HS := or_zero_eq (sell_price f)).
  split; [rewrite HT; ring|].
  split; [rewrite HT, HS; unfold sell_or_absent_zero; ring|].
  split.
  - apply roi_rule_intro; [reflexivity|]. rewrite HT. ring.
  - intros ->. reflexivity.
Qed.

(** C9: with the flip loaded (a non-zero buy price [B]) and its totals from
    [computeTotals] (total cost [T]), the what-if computation for a
    hypothetical sell price [S'] gives [totalCost = T],
    [profit = S' - (B + T)] and the same ROI rule, and it agrees with
    [computeTotals] run on the flip whose sell price is [S'], whatever the
    buy-price field of the form holds. *)
Theorem computeWhatIfTotals_refines : forall (f : Flip) (lineItems : list LineItem)
    (totals : FlipTotals) (buyPrice : option Q) (s' : Q),
  ~ buy_price f == 0 ->
  computeTotals (Some f) lineItems = Ok totals ->
  let w := computeWhatIfTotals (Some f) buyPrice (Some s') totals in
  totalCost w == total_amount lineItems /\
  profit w == s' - (buy_price f + total_amount lineItems) /\
  roi_rule (profit w) (buy_price f + total_amount lineItems) (roi w) /\
  exists t', computeTotals (Some (with_sell_price f s')) lineItems = Ok t' /\
    totalCost w == totalCost t' /\ profit w == profit t' /\ roi w == roi t'.
Proof.
  intros f lineItems totals buyPrice s' HB Htot w.
  assert (EB : Qeq_bool (buy_price f) 0 = false).
  { destruct (Qeq_bool (buy_price f) 0) eqn:E; [|reflexivity].
    apply Qeq_bool_iff in E. contradiction. }
  assert (HT := fold_amounts_eq lineItems 0).
  assert (HS := or_zero_eq (Some s')). simpl in HS.
  simpl in Htot. injection Htot as <-.
  unfold w, computeWhatIfTotals; simpl; rewrite EB; simpl.
  split; [rewrite HT; ring|].
  split; [rewrite HT; ring|].
  split; [apply roi_rule_intro; [reflexivity|]; rewrite HT; ring|].
  eexists. split; [reflexivity|]. simpl.
  split; [reflexivity|].
  assert (HP : s' - (buy_price f + fold_left (fun sum item => sum + amount item) lineItems 0)
            == or_zero (Some s') - (buy_price f + fold_left (fun sum item => sum + amount item) lineItems 0))
    by (rewrite HS; reflexivity).
  split; [exact HP|].
  destruct (Qgt_bool (buy_price f + fold_left (fun sum item => sum + amount item) lineItems 0) 0).
  - rewrite HP. reflexivity.
  - reflexivity.
Qed.

(** *** Aggregate summary *)

Lemma summary_fold : forall (l : list (Flip * FlipTotals)) (a : accumulators),
  let a' := fold_left summary_step l a in
  acc_sales a' == acc_sales a + sum_flips (fun ft => sell_or_absent_zero (fst ft)) l /\
  acc_purchases a' == acc_purchases a + sum_flips (fun ft => buy_price (fst ft)) l /\
  acc_expenses a' == acc_expenses a + sum_flips (fun ft => totalCost (snd ft)) l /\
  acc_profit a' == acc_profit a + sum_flips (fun ft => Qmax (profit (snd ft)) 0) l /\
  acc_loss a' == acc_loss a + sum_flips (fun ft => Qmax (- profit (snd ft)) 0) l.
Proof.
  induction l as [|[f t] l IH]; intros a; simpl.
  - repeat split; ring.
  - set (a1 := summary_step a (f, t)).
    destruct (IH a1) as (H1 & H2 & H3 & H4 & H5).
    assert (HS := or_zero_eq (sell_price f)).
    unfold a1, summary_step in *.
    destruct (Qgt_bool (profit t) 0) eqn:E;
      cbn [acc_sales acc_purchases acc_expenses acc_profit acc_loss fst snd sum_flips fold_right]
        in H1, H2, H3, H4, H5 |- *.
    + apply Qgt_bool_true in E.
      rewrite (Q.max_l (profit t) 0) by (apply Qlt_le_weak; exact E).
      rewrite (Q.max_r (- profit t) 0)
        by (apply (Qplus_le_l _ _ (profit t)); ring_simplify; apply Qlt_le_weak; exact E).
      rewrite H1, H2, H3, H4, H5, HS. unfold sell_or_absent_zero.
      repeat split; ring.
    + apply Qgt_bool_false in E.
      rewrite (Q.max_r (profit t) 0) by exact E.
      rewrite (Q.max_l (- profit t) 0)
        by (apply (Qplus_le_l _ _ (profit t)); ring_simplify; exact E).
      assert (HA : Qabs (profit t) == - profit t) by (apply Qabs_neg; exact E).
      rewrite H1, H2, H3, H4, H5, HS, HA. unfold sell_or_absent_zero.
      repeat split; ring.
Qed.

(** C8: the summary built for a non-empty list of flips with their totals
    has total sales = Σ sell price (0 when unset), total purchases =
    Σ buy price, total expenses = Σ totalCost, total profit =
    Σ max(profit, 0), total loss = Σ max(-profit, 0) and net gain/loss =
    total profit - total loss; per-flip profits [100; -50; 30] give total
    profit 130, total loss 50 and net 80. *)
Theorem export_summary_totals : forall (flips : list (Flip * FlipTotals)) (s : TaxSummary),
  export_summary flips = Some s ->
  (totalSales s == sum_flips (fun ft => sell_or_absent_zero (fst ft)) flips /\
   totalPurchases s == sum_flips (fun ft => buy_price (fst ft)) flips /\
   totalExpenses s == sum_flips (fun ft => totalCost (snd ft)) flips /\
   totalProfit s == sum_flips (fun ft => Qmax (profit (snd ft)) 0) flips /\
   totalLoss s == sum_flips (fun ft => Qmax (- profit (snd ft)) 0) flips /\
   netGainLoss s == totalProfit s - totalLoss s) /\
  (map (fun ft => profit (snd ft)) flips = [100; -50; 30] ->
   totalProfit s == 130 /\ totalLoss s == 50 /\ netGainLoss s == 80).
Proof.
  intros flips s Hs.
  destruct flips as [|ft0 rest] eqn:Ef; [discriminate|].
  rewrite <- Ef in Hs |- *.
  unfold export_summary in Hs. rewrite Ef in Hs. rewrite <- Ef in Hs.
  injection Hs as <-. simpl.
  destruct (summary_fold flips (mk_acc 0 0 0 0 0)) as (H1 & H2 & H3 & H4 & H5).
  simpl in H1, H2, H3, H4, H5.
  split.
  - rewrite H1, H2, H3, H4, H5. repeat split; try ring.
  - intros Hp. rewrite H4, H5.
    assert (Ep : forall g : Q -> Q, sum_flips (fun ft => g (profit (snd ft))) flips
                                   == fold_right (fun p s => g p + s) 0 [100; -50; 30]).
    { intros g. rewrite <- Hp. clear. induction flips as [|x l IH]; simpl.
      - reflexivity.
      - rewrite IH. reflexivity. }
    rewrite (Ep (fun p => Qmax p 0)), (Ep (fun p => Qmax (- p) 0)).
    vm_compute. repeat split; reflexivity.
Qed.

(** *** Combined expense summary of the aggregate report *)

Lemma first_occurrences_in : forall ks k, In k (first_occurrences ks) <-> In k ks.
Proof.
  induction ks as [|a ks IH]; intros k; simpl; [tauto|].
  rewrite filter_In, IH. split.
  - intros [H|[H _]]; auto.
  - intros [H|H]; [auto|].
    destruct (String.eqb_spec a k) as [E|E]; [left; exact E|].
    right. split; [exact H|]. reflexivity.
Qed.

Lemma first_occurrences_nodup : forall ks, NoDup (first_occurrences ks).
Proof.
  induction ks as [|a ks IH]; simpl; constructor.
  - rewrite filter_In. intros [_ H]. rewrite String.eqb_refl in H. discriminate.
  - apply NoDup_filter. exact IH.
Qed.

Lemma first_occurrences_snoc : forall ks k,
  first_occurrences (ks ++ [k]) =
  first_occurrences ks ++ (if existsb (String.eqb k) ks then [] else [k]).
Proof.
  induction ks as [|a ks IH]; intros k; simpl; [reflexivity|].
  rewrite IH, filter_app. f_equal. f_equal.
  destruct (existsb (String.eqb k) ks); simpl; [rewrite orb_true_r; reflexivity|].
  rewrite orb_false_r. destruct (String.eqb_spec k a) as [->|E]; simpl.
  - rewrite String.eqb_refl. reflexivity.
  - rewrite (proj2 (String.eqb_neq a k)) by congruence. reflexivity.
Qed.

Lemma existsb_eqb_in : forall k ks, existsb (String.eqb k) ks = true <-> In k ks.
Proof.
  intros k ks. rewrite existsb_exists. split.
  - intros [x [Hx E]]. apply String.eqb_eq in E. subst. exact Hx.
  - intros H. exists k. split; [exact H|]. apply String.eqb_refl.
Qed.

Lemma record_add_keys : forall m k v,
  map fst (record_add m k v) =
  if existsb (String.eqb k) (map fst m) then map fst m else map fst m ++ [k].
Proof.
  induction m as [|[k' x] m IH]; intros k v; simpl; [reflexivity|].
  destruct (String.eqb k k') eqn:E; simpl; [reflexivity|].
  rewrite IH. destruct (existsb (String.eqb k) (map fst m)); reflexivity.
Qed.

Lemma key_total_snoc : forall k items item,
  key_total k (items ++ [item]) ==
  key_total k items + (if String.eqb (expense_key item) k then amount item else 0).
Proof.
  intros k items item. unfold key_total. rewrite filter_app. simpl.
  assert (Happ : forall l1 l2, total_amount (l1 ++ l2) == total_amount l1 + total_amount l2).
  { induction l1 as [|y l1 IH]; intros l2; simpl; [ring|]. rewrite IH. ring. }
  rewrite Happ. destruct (String.eqb (expense_key item) k); simpl; ring.
Qed.

Lemma key_total_absent : forall k items,
  ~ In k (map expense_key items) -> key_total k items == 0.
Proof.
  intros k items H. unfold key_total.
  replace (filter (fun item => String.eqb (expense_key item) k) items) with (@nil LineItem);
    [reflexivity|].
  induction items as [|y l IH]; simpl in *; [reflexivity|].
  destruct (String.eqb_spec (expense_key y) k) as [E|E]; [tauto|].
  apply IH. tauto.
Qed.

Lemma key_total_other : forall k items item,
  String.eqb (expense_key item) k = false ->
  key_total k (items ++ [item]) == key_total k items.
Proof.
  intros k items item E. rewrite key_total_snoc, E. ring.
Qed.

Lemma record_add_totals : forall m items item,
  NoDup (map fst m) ->
  Forall (fun e => snd e == key_total (fst e) items) m ->
  (~ In (expense_key item) (map fst m) -> key_total (expense_key item) items == 0) ->
  Forall (fun e => snd e == key_total (fst e) (items ++ [item]))
         (record_add m (expense_key item) (amount item)).
Proof.
  induction m as [|[k' x] m IH]; intros items item Hnd Hall Habs; simpl.
  - constructor; [|constructor]. simpl.
    rewrite key_total_snoc, String.eqb_refl, (Habs (fun H => H)). ring.
  - inversion Hnd as [|? ? Hk' Hnd']; subst.
    inversion Hall as [|? ? Hx Hall']; subst. simpl in Hx.
    destruct (String.eqb_spec (expense_key item) k') as [E|E].
    + constructor.
      * assert (Hz := or_zero_eq (Some x)). simpl in Hz |- *.
        rewrite Hz, Hx, key_total_snoc, E, String.eqb_refl. ring.
      * apply Forall_forall. intros [k'' y] Hin.
        assert (Hy := proj1 (Forall_forall _ _) Hall' _ Hin). simpl in *.
        rewrite key_total_other; [exact Hy|].
        apply String.eqb_neq. intros E'.
        apply Hk'. rewrite <- E, E'. apply (in_map fst) in Hin. exact Hin.
    + constructor.
      * simpl. rewrite key_total_other; [exact Hx|].
        apply String.eqb_neq. exact E.
      * apply IH; [exact Hnd'|exact Hall'|].
        intros Hn. apply Habs. simpl. intros [H|H]; [congruence|tauto].
Qed.

Lemma combined_fold : forall items,
  let m := fold_left (fun m item => record_add m (expense_key item) (amount item)) items [] in
  map fst m = first_occurrences (map expense_key items) /\
  Forall (fun e => snd e == key_total (fst e) items) m.
Proof.
  induction items as [|item items IH] using rev_ind; simpl.
  - split; [reflexivity|constructor].
  - destruct IH as [Hk Hs].
    rewrite fold_left_app. simpl.
    set (m := fold_left (fun m item => record_add m (expense_key item) (amount item)) items []) in *.
    split.
    + rewrite record_add_keys, Hk, map_app.
      change (map expense_key [item]) with [expense_key item].
      rewrite first_occurrences_snoc.
      assert (Hex : existsb (String.eqb (expense_key item)) (first_occurrences (map expense_key items))
                    = existsb (String.eqb (expense_key item)) (map expense_key items)).
      { apply eq_true_iff_eq. rewrite !existsb_eqb_in, first_occurrences_in. tauto. }
      rewrite Hex.
      destruct (existsb (String.eqb (expense_key item)) (map expense_key items));
        rewrite ?app_nil_r; reflexivity.
    + apply record_add_totals; [rewrite Hk; apply first_occurrences_nodup|exact Hs|].
      intros Hn. apply key_total_absent. rewrite Hk, first_occurrences_in in Hn. exact Hn.
Qed.

(** C10: in the combined expense summary of the aggregate report, the
    entries appear in the order in which their keys are first met over all
    items of all flips, an item without category being filed under
    ["misc"], and each entry's total is the sum of the amounts of the items
    filed under its key. *)
Theorem combined_expenses_correct : forall flips : list FlipData,
  map fst (combined_expenses flips) = first_occurrences (map expense_key (all_items flips)) /\
  Forall (fun e => snd e == key_total (fst e) (all_items flips)) (combined_expenses flips) /\
  (forall item, category_of item = None -> expense_key item = "misc"%string).
Proof.
  intros flips.
  assert (Hflat : combined_expenses flips =
    fold_left (fun m item => record_add m (expense_key item) (amount item)) (all_items flips) []).
  { unfold combined_expenses, all_items. generalize (@nil (string * Q)).
    induction flips as [|fd flips IH]; intros m; simpl; [reflexivity|].
    rewrite fold_left_app. apply IH. }
  rewrite Hflat. destruct (combined_fold (all_items flips)) as [H1 H2].
  split; [exact H1|]. split; [exact H2|].
  intros item E. unfold expense_key. rewrite E. reflexivity.
Qed.

(** *** Category grouping of the single-flip tax report *)

Lemma nonempty_guard : forall (A B : Type) (f : A -> B) (l : list A),
  (if Nat.ltb 0 (List.length l) then map f l else []) = map f l.
Proof. intros A B f [|x l]; reflexivity. Qed.

Lemma length_filter_pos : forall (A : Type) (p : A -> bool) (l : list A),
  Nat.ltb 0 (List.length (filter p l)) = existsb p l.
Proof.
  intros A p l. induction l as [|x l IH]; simpl; [reflexivity|].
  destruct (p x); simpl; [reflexivity|exact IH].
Qed.

(** C7: the DETAILED EXPENSES rows list the parts items, then the labor,
    fees and misc items, then the items without category labelled
    ["misc"], each group in input order; the EXPENSE SUMMARY BY CATEGORY
    has a line for a named category exactly when some item is in it, in
    the order parts, labor, fees, misc (then [Miscellaneous] when the
    uncategorized total is positive), and the subtotal printed for a named
    category is the sum of its items' amounts. *)
Theorem tax_report_grouping : forall lineItems : list LineItem,
  expense_listing lineItems =
    map (fun item => ("parts", item)%string) (filter (in_category Parts) lineItems) ++
    map (fun item => ("labor", item)%string) (filter (in_category Labor) lineItems) ++
    map (fun item => ("fees", item)%string) (filter (in_category Fees) lineItems) ++
    map (fun item => ("misc", item)%string) (filter (in_category Misc) lineItems) ++
    map (fun item => ("misc", item)%string) (filter uncategorized lineItems) /\
  map fst (category_summary lineItems) =
    map (fun c => capitalize (category_name c))
        (filter (fun c => existsb (in_category c) lineItems) categories) ++
    (if Qgt_bool (sum_amounts (filter uncategorized lineItems)) 0
     then ["Miscellaneous"%string] else []) /\
  (forall (c : category) (t : Q),
     In (capitalize (category_name c), t) (category_summary lineItems) ->
     t == total_amount (filter (in_category c) lineItems)).
Proof.
  intros lineItems. split; [|split].
  - unfold expense_listing. simpl. rewrite !nonempty_guard, !app_assoc, app_nil_r.
    reflexivity.
  - unfold category_summary. rewrite map_app. f_equal.
    + simpl. rewrite !length_filter_pos.
      destruct (existsb (in_category Parts) lineItems),
               (existsb (in_category Labor) lineItems),
               (existsb (in_category Fees) lineItems),
               (existsb (in_category Misc) lineItems); reflexivity.
    + destruct (Qgt_bool _ 0); reflexivity.
  - intros c t H. unfold category_summary in H.
    apply in_app_iff in H. destruct H as [H|H].
    + apply in_flat_map in H. destruct H as [c' [_ H]].
      destruct (Nat.ltb 0 _); [|destruct H].
      destruct H as [E|[]]. injection E as Ec Et.
      assert (c' = c) as -> by (destruct c, c'; simpl in Ec; congruence).
      rewrite <- Et. apply sum_amounts_eq.
    + destruct (Qgt_bool _ 0); [|destruct H].
      destruct H as [E|[]]. injection E as Ec _. destruct c; discriminate Ec.
Qed.

(** *** The generation date in the reports *)

Lemma str_app_assoc : forall a b c : string, ((a ++ b) ++ c = a ++ (b ++ c))%string.
Proof. induction a as [|x a IH]; intros b c; simpl; [reflexivity|]. rewrite IH. reflexivity. Qed.

Lemma list_ascii_app : forall a b : string,
  list_ascii_of_string (a ++ b) = list_ascii_of_string a ++ list_ascii_of_string b.
Proof. induction a as [|x a IH]; intros b; simpl; [reflexivity|]. rewrite IH. reflexivity. Qed.

Lemma middle_injective : forall pre post t1 t2 : string,
  (pre ++ t1 ++ post)%string = (pre ++ t2 ++ post)%string <-> t1 = t2.
Proof.
  intros pre post t1 t2. split; [|intros ->; reflexivity].
  intros H. apply (f_equal list_ascii_of_string) in H.
  rewrite !list_ascii_app in H. apply app_inv_head in H.
  assert (Hlen : List.length (list_ascii_of_string t1) = List.length (list_ascii_of_string t2)).
  { apply (f_equal (@List.length ascii)) in H. rewrite !length_app in H. lia. }
  apply (f_equal (firstn (List.length (list_ascii_of_string t1)))) in H.
  rewrite firstn_app, Nat.sub_diag, firstn_all, Hlen, firstn_app, Nat.sub_diag, firstn_all in H.
  simpl in H. rewrite !app_nil_r in H.
  rewrite <- (string_of_list_ascii_of_string t1), <- (string_of_list_ascii_of_string t2), H.
  reflexivity.
Qed.

Lemma date_line_split : forall (a today : string) (rest : list string),
  text_of (a :: line ("Generated: " ++ today) :: rest) =
  ((a ++ "Generated: ") ++ today ++ (nl ++ text_of rest))%string.
Proof.
  intros a today rest. unfold text_of, line. simpl.
  rewrite !str_app_assoc. reflexivity.
Qed.

Lemma tax_export_date : forall fmt data today,
  generateTaxExportPDF fmt today data =
  ((line "TAX REPORT - VEHICLE FLIP" ++ "Generated: ") ++ today ++
   (nl ++ text_of (skipn 2 (tax_export_lines fmt "" data))))%string.
Proof.
  intros fmt data today. unfold generateTaxExportPDF.
  rewrite <- date_line_split. reflexivity.
Qed.

Lemma all_flips_date : forall fmt data today,
  generateAllFlipsTaxReport fmt today data =
  ((line "COMPLETE TAX REPORT - ALL VEHICLE FLIPS" ++ "Generated: ") ++ today ++
   (nl ++ text_of (skipn 2 (all_flips_lines fmt "" data))))%string.
Proof.
  intros fmt data today. unfold generateAllFlipsTaxReport.
  rewrite <- date_line_split. reflexivity.
Qed.

(** C6 (as amended): each report generator is a function of its data and
    of the generation date [today] read from the clock.  The text is a
    fixed prefix, then [today] on the [Generated:] line, then a fixed
    suffix: two generations from the same data are byte-identical exactly
    when they read the same date. *)
Theorem reports_deterministic_per_date : forall (fmt : Formatting)
    (single : TaxExportData) (all : AllFlipsTaxData),
  (exists pre post : string, forall today,
     generateTaxExportPDF fmt today single = (pre ++ today ++ post)%string) /\
  (exists pre post : string, forall today,
     generateAllFlipsTaxReport fmt today all = (pre ++ today ++ post)%string) /\
  (forall t1 t2, generateTaxExportPDF fmt t1 single = generateTaxExportPDF fmt t2 single
                 <-> t1 = t2) /\
  (forall t1 t2, generateAllFlipsTaxReport fmt t1 all = generateAllFlipsTaxReport fmt t2 all
                 <-> t1 = t2).
Proof.
  intros fmt single all. split; [|split; [|split]].
  - eexists. eexists. intros today. apply tax_export_date.
  - eexists. eexists. intros today. apply all_flips_date.
  - intros t1 t2. rewrite !tax_export_date. apply middle_injective.
  - intros t1 t2. rewrite !all_flips_date. apply middle_injective.
Qed.

(** C6 counterexample: the same flip, line items and totals give two
    different texts when the report is generated on two different days. *)
Lemma reports_deterministic_cex :
  generateTaxExportPDF sample_formatting "6/1/2025" sample_export <>
  generateTaxExportPDF sample_formatting "6/2/2025" sample_export.
Proof.
  rewrite !tax_export_date. intros H. apply middle_injective in H. discriminate H.
Qed.

(** *** Witnesses *)

Lemma computeWhatIfTotals_refines_witness :
  ~ buy_price sample_flip == 0 /\
  computeTotals (Some sample_flip) sample_items = Ok sample_totals /\
  (let w := computeWhatIfTotals (Some sample_flip) None (Some 7000) sample_totals in
   totalCost w == total_amount sample_items /\
   profit w == 7000 - (buy_price sample_flip + total_amount sample_items) /\
   roi_rule (profit w) (buy_price sample_flip + total_amount sample_items) (roi w) /\
   exists t', computeTotals (Some (with_sell_price sample_flip 7000)) sample_items = Ok t' /\
     totalCost w == totalCost t' /\ profit w == profit t' /\ roi w == roi t').
Proof.
  assert (HB : ~ buy_price sample_flip == 0) by (vm_compute; discriminate).
  assert (HT : computeTotals (Some sample_flip) sample_items = Ok sample_totals)
    by reflexivity.
  split; [exact HB|]. split; [exact HT|].
  exact (computeWhatIfTotals_refines sample_flip sample_items sample_totals None 7000 HB HT).
Defined.

Lemma export_summary_totals_witness :
  export_summary example_flips = Some example_summary /\
  ((totalSales example_summary == sum_flips (fun ft => sell_or_absent_zero (fst ft)) example_flips /\
    totalPurchases example_summary == sum_flips (fun ft => buy_price (fst ft)) example_flips /\
    totalExpenses example_summary == sum_flips (fun ft => totalCost (snd ft)) example_flips /\
    totalProfit example_summary == sum_flips (fun ft => Qmax (profit (snd ft)) 0) example_flips /\
    totalLoss example_summary == sum_flips (fun ft => Qmax (- profit (snd ft)) 0) example_flips /\
    netGainLoss example_summary == totalProfit example_summary - totalLoss example_summary) /\
   (map (fun ft => profit (snd ft)) example_flips = [100; -50; 30] ->
    totalProfit example_summary == 130 /\ totalLoss example_summary == 50 /\
    netGainLoss example_summary == 80)).
Proof.
  assert (H : export_summary example_flips = Some example_summary) by (vm_compute; reflexivity).
  split; [exact H|].
  exact (export_summary_totals example_flips example_summary H).
Defined.

(** *** Quick-entry parser: the three grammars *)

(** C3: the labeled, spaced and fallback grammars are tried in this order
    on the trimmed input and the first that matches decides the result;
    ["$150-25 - new battery"] is matched by the labeled form and parses to
    amount 125 and title ["new battery"], and ["45 oil filter"], on which
    the labeled form fails, is matched by the spaced form and parses to
    amount 45 and title ["oil filter"]. *)
Theorem parseLineItem_grammar_order :
  (forall (input : string) (a t : list ascii) (r : list (list ascii)),
     trim (list_ascii_of_string input) <> [] ->
     match_atoms dollarPattern (trim (list_ascii_of_string input)) = Some (a :: t :: r) ->
     parseLineItem input = finish_titled a t) /\
  (forall (input : string) (a t : list ascii) (r : list (list ascii)),
     trim (list_ascii_of_string input) <> [] ->
     match_atoms dollarPattern (trim (list_ascii_of_string input)) = None ->
     match_atoms numberPattern (trim (list_ascii_of_string input)) = Some (a :: t :: r) ->
     parseLineItem input = finish_titled a t) /\
  (forall (input : string) (a t : list ascii) (r : list (list ascii)),
     trim (list_ascii_of_string input) <> [] ->
     match_atoms dollarPattern (trim (list_ascii_of_string input)) = None ->
     match_atoms numberPattern (trim (list_ascii_of_string input)) = None ->
     match_atoms simplePattern (trim (list_ascii_of_string input)) = Some (a :: t :: r) ->
     parseLineItem input = finish_simple a t) /\
  match_atoms dollarPattern (trim (list_ascii_of_string "$150-25 - new battery"))
    = Some [list_ascii_of_string "150-25 "; list_ascii_of_string "new battery"] /\
  parseLineItem "$150-25 - new battery" = Parsed (Fin 125) "new battery" /\
  match_atoms dollarPattern (trim (list_ascii_of_string "45 oil filter")) = None /\
  match_atoms numberPattern (trim (list_ascii_of_string "45 oil filter"))
    = Some [list_ascii_of_string "45"; list_ascii_of_string "oil filter"] /\
  parseLineItem "45 oil filter" = Parsed (Fin 45) "oil filter".
Proof.
  split; [|split; [|split]].
  - intros input a t r Hne H1. unfold parseLineItem.
    destruct (trim (list_ascii_of_string input)) as [|c s]; [congruence|].
    rewrite H1. reflexivity.
  - intros input a t r Hne H1 H2. unfold parseLineItem.
    destruct (trim (list_ascii_of_string input)) as [|c s]; [congruence|].
    rewrite H1, H2. reflexivity.
  - intros input a t r Hne H1 H2 H3. unfold parseLineItem.
    destruct (trim (list_ascii_of_string input)) as [|c s]; [congruence|].
    rewrite H1, H2, H3. reflexivity.
  - repeat split; vm_compute; reflexivity.
Qed.

Lemma parseLineItem_grammar_order_witness :
  trim (list_ascii_of_string "45 oil filter") <> [] /\
  match_atoms dollarPattern (trim (list_ascii_of_string "45 oil filter")) = None /\
  match_atoms numberPattern (trim (list_ascii_of_string "45 oil filter"))
    = Some [list_ascii_of_string "45"; list_ascii_of_string "oil filter"] /\
  parseLineItem "45 oil filter"
    = finish_titled (list_ascii_of_string "45") (list_ascii_of_string "oil filter").
Proof.
  assert (H0 : trim (list_ascii_of_string "45 oil filter") <> []) by (vm_compute; discriminate).
  assert (H1 : match_atoms dollarPattern (trim (list_ascii_of_string "45 oil filter")) = None)
    by (vm_compute; reflexivity).
  assert (H2 : match_atoms numberPattern (trim (list_ascii_of_string "45 oil filter"))
               = Some [list_ascii_of_string "45"; list_ascii_of_string "oil filter"])
    by (vm_compute; reflexivity).
  split; [exact H0|]. split; [exact H1|]. split; [exact H2|].
  exact (proj1 (proj2 parseLineItem_grammar_order) "45 oil filter"%string _ _ [] H0 H1 H2).
Defined.

(** *** Quick-entry parser: non-finite amounts *)

(** C5 (failing input): the amount check [amount === null || amount <= 0]
    lets NaN and Infinity through.  The entry ["1" ++ 309 zeros ++ "*0 x"]
    evaluates to Infinity times 0, which is NaN, and parses successfully
    with amount NaN; ["1" ++ 309 zeros ++ " x"] parses with amount
    Infinity, and so does ["1" ++ 307 zeros ++ " x"], whose amount is
    finite but overflows when multiplied by 100 for rounding. *)
Theorem parseLineItem_accepts_nonfinite :
  parseLineItem (one_e 309 ++ "*0 x") = Parsed NaN "x" /\
  parseLineItem (one_e 309 ++ " x") = Parsed PosInf "x" /\
  parseLineItem (one_e 307 ++ " x") = Parsed PosInf "x".
Proof. repeat split; vm_compute; reflexivity. Qed.

(** *** Characters and tokens *)



Lemma forallb_mono (f g : ascii -> bool) (l : list ascii) :
  (forall c, f c = true -> g c = true) -> forallb f l = true -> forallb g l = true.
Proof.
  intros Hfg. induction l as [|c l IH]; simpl; [reflexivity|].
  intros H. apply andb_true_iff in H as [H1 H2].
  rewrite (Hfg c H1), (IH H2). reflexivity.
Qed.


(** *** [split] on a string whose pieces avoid the separators *)

Lemma split_keep_free (sep : ascii -> bool) (m r cur : list ascii) :
  forallb (fun c => negb (sep c)) m = true ->
  split_keep sep cur (m ++ r) = split_keep sep (rev m ++ cur) r.
Proof.
  revert cur. induction m as [|c m IH]; intros cur H; simpl; [reflexivity|].
  simpl in H. apply andb_true_iff in H as [Hc Hm].
  apply negb_true_iff in Hc. rewrite Hc, IH by exact Hm.
  rewrite <- app_assoc. reflexivity.
Qed.


(** *** [parseFloat] on a rendered numeral *)






(** *** Rendered expressions *)





(** *** The two evaluator loops on rendered expressions *)





(** *** Quick-entry evaluator *)




(** *** Division by a zero numeral *)

Lemma remove_ws_drop (l : list ascii) : remove_ws (drop_ws l) = remove_ws l.
Proof.
  induction l as [|c l IH]; [reflexivity|]. simpl.
  destruct (is_ws c) eqn:E; [rewrite IH|]; unfold remove_ws; simpl; rewrite ?E;
    reflexivity.
Qed.

Lemma remove_ws_rev (l : list ascii) : remove_ws (rev l) = rev (remove_ws l).
Proof.
  induction l as [|c l IH]; [reflexivity|]. simpl.
  unfold remove_ws in *. rewrite filter_app, IH. simpl.
  destruct (negb (is_ws c)); simpl; rewrite ?app_nil_r; reflexivity.
Qed.

Lemma evaluateMath_trim (a : list ascii) : evaluateMath (trim a) = evaluateMath a.
Proof.
  assert (H : remove_ws (trim a) = remove_ws a).
  { unfold trim. rewrite remove_ws_rev, remove_ws_drop, remove_ws_rev, rev_involutive.
    apply remove_ws_drop. }
  unfold evaluateMath. rewrite H. reflexivity.
Qed.

Lemma span_spec (p : ascii -> bool) (s a b : list ascii) :
  span p s = (a, b) ->
  s = a ++ b /\ forallb p a = true /\
  match b with [] => True | c :: _ => p c = false end.
Proof.
  revert a b. induction s as [|c s IH]; intros a b H; simpl in H.
  - inversion H; subst. repeat split.
  - destruct (p c) eqn:Ec.
    + destruct (span p s) as [a' b'] eqn:E. inversion H; subst.
      destruct (IH _ _ eq_refl) as (-> & Ha & Hb). simpl. rewrite Ec, Ha.
      repeat split; assumption.
    + inversion H; subst. simpl. repeat split. exact Ec.
Qed.

Lemma split_keep_mem (sep : ascii -> bool) (a m r cur : list ascii) :
  forallb (fun c => negb (sep c)) m = true ->
  match r with [] => True | c :: _ => sep c = true end ->
  exists q, In (q ++ m) (split_keep sep cur (a ++ m ++ r)).
Proof.
  intros Hm Hr. revert cur. induction a as [|d a IH]; intros cur; simpl.
  - rewrite split_keep_free by exact Hm. exists (rev cur).
    destruct r as [|c r]; simpl; [|rewrite Hr]; left;
      rewrite rev_app_distr, rev_involutive; reflexivity.
  - destruct (sep d).
    + destruct (IH []) as [q Hq]. exists q. right. right. exact Hq.
    + apply IH.
Qed.

Lemma split_keep_sep (sep : ascii -> bool) (a b cur : list ascii) (c : ascii) :
  sep c = true ->
  exists w0 pairs,
    split_keep sep cur (a ++ c :: b)
    = w0 :: flat_map (fun p => [fst p; snd p]) pairs ++ [c] :: split_keep sep [] b.
Proof.
  intros Hc. revert cur. induction a as [|d a IH]; intros cur; simpl.
  - rewrite Hc. exists (rev cur), []. reflexivity.
  - destruct (sep d).
    + destruct (IH []) as (w0 & pairs & E). exists (rev cur), (([d], w0) :: pairs).
      rewrite E. reflexivity.
    + apply IH.
Qed.

Lemma md_loop_pairs (pairs : list (list ascii * list ascii)) (M : list (list ascii))
      (r : num) :
  md_loop (flat_map (fun p => [fst p; snd p]) pairs ++ M) r = None \/
  exists r', md_loop (flat_map (fun p => [fst p; snd p]) pairs ++ M) r = md_loop M r'.
Proof.
  revert r. induction pairs as [|[op v] pairs IH]; intros r; simpl.
  - right. exists r. reflexivity.
  - destruct (isNaN (parseFloat v)); [left; reflexivity|].
    destruct (is_token op "*"%char); [apply IH|].
    destruct (is_token op "/"%char); [|apply IH].
    destruct (num_is_zero (parseFloat v)); [left; reflexivity|apply IH].
Qed.

Lemma Z_of_digits_zero (l : list ascii) :
  forallb (fun c => Ascii.eqb c "0"%char) l = true -> Z_of_digits l = 0%Z.
Proof.
  unfold Z_of_digits. induction l as [|c l IH]; intros H; [reflexivity|].
  simpl in H. apply andb_true_iff in H as [Hc Hl].
  apply Ascii.eqb_eq in Hc. subst c. exact (IH Hl).
Qed.

Lemma fin_zero (q : Q) : q == 0 -> fin q = Fin 0.
Proof.
  intros Hq. unfold fin.
  assert (H1 : Qle_bool overflow_bound q = false).
  { apply not_true_iff_false. intros H. apply Qle_bool_iff in H. rewrite Hq in H.
    apply (Qle_not_lt _ _ H). vm_compute. reflexivity. }
  assert (H2 : Qle_bool q (- overflow_bound) = false).
  { apply not_true_iff_false. intros H. apply Qle_bool_iff in H. rewrite Hq in H.
    apply (Qle_not_lt _ _ H). vm_compute. reflexivity. }
  assert (H3 : Qeq_bool q 0 = true) by (apply Qeq_bool_iff; exact Hq).
  rewrite H1, H2. unfold round_double. rewrite H3. reflexivity.
Qed.

Lemma decimal_value_zero (d1 d2 : list ascii) :
  forallb (fun c => Ascii.eqb c "0"%char) (d1 ++ d2) = true ->
  fin (decimal_value d1 d2) = Fin 0.
Proof.
  intros H. apply fin_zero. unfold decimal_value. rewrite (Z_of_digits_zero _ H).
  unfold Qeq. reflexivity.
Qed.

Lemma digits_zero (a : list ascii) :
  forallb is_digit a = true ->
  forallb (fun c => negb (is_digit c) || Ascii.eqb c "0"%char) a = true ->
  forallb (fun c => Ascii.eqb c "0"%char) a = true.
Proof.
  induction a as [|c a IH]; [reflexivity|]. simpl.
  intros H1 H2. apply andb_true_iff in H1 as [H1 H1']. apply andb_true_iff in H2 as [H2 H2'].
  rewrite H1 in H2. simpl in H2. rewrite H2, (IH H1' H2'). reflexivity.
Qed.

(** [parseFloat] of a string whose digits are all [0] is NaN or 0. *)
Lemma parseFloat_zeroish (z : list ascii) :
  forallb (fun c => negb (is_digit c) || Ascii.eqb c "0"%char) z = true ->
  isNaN (parseFloat z) || num_is_zero (parseFloat z) = true.
Proof.
  intros Hz. unfold parseFloat.
  destruct (span is_digit z) as [d1 r1] eqn:E1.
  apply span_spec in E1 as (-> & Hd1 & _).
  rewrite forallb_app in Hz. apply andb_true_iff in Hz as [Hz1 Hz2].
  pose proof (digits_zero d1 Hd1 Hz1) as H1.
  destruct r1 as [|c r2].
  - destruct d1; [reflexivity|].
    rewrite decimal_value_zero by (rewrite app_nil_r; exact H1). reflexivity.
  - destruct (Ascii.eqb c "."%char).
    + destruct (span is_digit r2) as [d2 r3] eqn:E2.
      apply span_spec in E2 as (-> & Hd2 & _).
      simpl in Hz2. apply andb_true_iff in Hz2 as [_ Hz2].
      rewrite forallb_app in Hz2. apply andb_true_iff in Hz2 as [Hz2 _].
      pose proof (digits_zero d2 Hd2 Hz2) as H2.
      assert (H12 : forallb (fun c => Ascii.eqb c "0"%char) (d1 ++ d2) = true)
        by (rewrite forallb_app, H1, H2; reflexivity).
      destruct d1, d2; try reflexivity; rewrite decimal_value_zero by exact H12;
        reflexivity.
    + destruct d1; [reflexivity|].
      rewrite decimal_value_zero by (rewrite app_nil_r; exact H1). reflexivity.
Qed.

Lemma md_loop_div_zero (z : list ascii) (rest : list (list ascii)) (r : num) :
  isNaN (parseFloat z) || num_is_zero (parseFloat z) = true ->
  md_loop (["/"%char] :: z :: rest) r = None.
Proof.
  remember (parseFloat z) as v eqn:Ev. intros H. simpl. rewrite <- Ev.
  destruct (isNaN v); [reflexivity|]. simpl in H. rewrite H. reflexivity.
Qed.

Lemma is_token_app (q w : list ascii) (c d : ascii) :
  Ascii.eqb c d = false -> is_token (q ++ c :: w) d = false.
Proof.
  intros H. destruct q as [|x [|y q]]; simpl; try reflexivity.
  destruct w; [exact H|reflexivity].
Qed.

Lemma add_loop_none (toks : list (list ascii)) (t : list ascii) (r : num) (op : ascii) :
  In t toks -> is_token t "+"%char = false -> is_token t "-"%char = false ->
  evaluateMultiplyDivide t = None -> add_loop toks r op = None.
Proof.
  intros Hin Hp Hm He. revert r op.
  induction toks as [|t0 toks IH]; intros r op; [destruct Hin|].
  simpl. destruct Hin as [<-|Hin].
  - rewrite Hp, Hm, He. reflexivity.
  - destruct (is_token t0 "+"%char); [apply IH; exact Hin|].
    destruct (is_token t0 "-"%char); [apply IH; exact Hin|].
    destruct (evaluateMultiplyDivide t0); [|reflexivity].
    destruct (Ascii.eqb op "+"%char); apply IH; exact Hin.
Qed.

Lemma zero_numeral_chars (z : list ascii) :
  zero_numeral z = true ->
  forallb (fun c => negb (is_addop c)) z = true /\
  forallb (fun c => negb (is_mulop c)) z = true /\
  forallb (fun c => negb (is_digit c) || Ascii.eqb c "0"%char) z = true.
Proof.
  intros H. assert (Hz : forallb (fun c => Ascii.eqb c "0"%char || Ascii.eqb c "."%char) z = true).
  { destruct z; [discriminate H|]. apply andb_true_iff in H as [H _]. exact H. }
  repeat split; (eapply forallb_mono; [|exact Hz]); intros c Hc;
    apply orb_true_iff in Hc as [Hc|Hc]; apply Ascii.eqb_eq in Hc; subst c; reflexivity.
Qed.

Lemma evaluateMath_div_zero (seg : list ascii) :
  divides_by_zero seg -> evaluateMath seg = None.
Proof.
  intros (p & z & s & Hrw & Hz & Hs). unfold evaluateMath. rewrite Hrw.
  destruct (negb _); [reflexivity|].
  destruct (zero_numeral_chars z Hz) as (Hza & Hzm & Hzd).
  destruct (span (fun c => negb (is_addop c)) s) as [s1 s2] eqn:Es.
  apply span_spec in Es as (Hs12 & Hs1 & Hs2).
  assert (Hmem : exists q, In (q ++ "/"%char :: z ++ s1)
                              (split_keep is_addop [] (p ++ "/"%char :: z ++ s))).
  { rewrite Hs12.
    replace (p ++ "/"%char :: z ++ s1 ++ s2) with (p ++ ("/"%char :: z ++ s1) ++ s2)
      by (simpl; rewrite app_assoc; reflexivity).
    apply split_keep_mem.
    - simpl. rewrite forallb_app, Hza, Hs1. reflexivity.
    - destruct s2 as [|c s2]; [exact I|]. apply negb_false_iff in Hs2. exact Hs2. }
  destruct Hmem as [q Hin].
  rewrite (add_loop_none _ _ _ _ Hin); [reflexivity|apply is_token_app; reflexivity
                                       |apply is_token_app; reflexivity|].
  unfold evaluateMultiplyDivide.
  destruct (split_keep_sep is_mulop q (z ++ s1) [] "/"%char eq_refl) as (w0 & pairs & E).
  rewrite E, split_keep_free by exact Hzm.
  assert (Hrest : exists rest, split_keep is_mulop (rev z ++ []) s1 = z :: rest).
  { destruct s1 as [|c s1'].
    - exists []. simpl. rewrite app_nil_r, rev_involutive. reflexivity.
    - rewrite Hs12 in Hs. simpl in Hs, Hs1. apply andb_true_iff in Hs1 as [Hc _].
      unfold is_op in Hs. apply negb_true_iff in Hc. rewrite Hc in Hs. simpl in Hs.
      simpl. rewrite Hs. exists ([c] :: split_keep is_mulop [] s1').
      rewrite app_nil_r, rev_involutive. reflexivity. }
  destruct Hrest as [rest ->].
  destruct (isNaN (parseFloat w0)); [reflexivity|].
  destruct (md_loop_pairs pairs (["/"%char] :: z :: rest) (parseFloat w0)) as [H|[r' H]];
    rewrite H; [reflexivity|].
  apply md_loop_div_zero, parseFloat_zeroish, Hzd.
Qed.

(** *** Captures of the pattern matcher *)

Lemma span_len_le (p : ascii -> bool) (s : list ascii) : (span_len p s <= List.length s)%nat.
Proof.
  induction s as [|c s IH]; simpl; [reflexivity|]. destruct (p c); lia.
Qed.

Lemma max_reps_le (a : atom) (s : list ascii) : (max_reps a s <= List.length s)%nat.
Proof.
  pose proof (span_len_le (a_class a) s). unfold max_reps.
  destruct (a_quant a); lia.
Qed.

(** The first atom takes [n] characters, between its minimum and maximum
    repetition counts, and the rest of the pattern matches what follows. *)
Lemma match_atoms_cons (a : atom) (rest : list atom) (s : list ascii)
      (caps : list (list ascii)) :
  match_atoms (a :: rest) s = Some caps ->
  exists n caps', (min_reps a <= n <= max_reps a s)%nat /\
    match_atoms rest (skipn n s) = Some caps' /\
    caps = (if a_capture a then firstn n s :: caps' else caps').
Proof.
  cbn [match_atoms]. intros H.
  remember (max_reps a s) as M eqn:HM.
  assert (HB : (M <= max_reps a s)%nat) by lia. clear HM. revert H HB.
  induction M as [|M IH]; intros H HB; cbv beta iota fix in H.
  - destruct (0 <? min_reps a) eqn:Ev; [discriminate H|].
    destruct (match_atoms rest (skipn 0 s)) as [caps'|] eqn:Em; [|discriminate H].
    inversion H; subst. apply Nat.ltb_ge in Ev.
    exists 0%nat, caps'. repeat split; try lia; try assumption; reflexivity.
  - destruct (S M <? min_reps a) eqn:Ev; [discriminate H|].
    destruct (match_atoms rest (skipn (S M) s)) as [caps'|] eqn:Em.
    + inversion H; subst. apply Nat.ltb_ge in Ev.
      exists (S M), caps'. repeat split; try lia; try assumption; reflexivity.
    + destruct (IH H) as (n & caps'' & Hn & Hm & Hc); [lia|].
      exists n, caps''. repeat split; try lia; assumption.
Qed.

Lemma match_atoms_caps_len (atoms : list atom) (s : list ascii) (caps : list (list ascii)) :
  match_atoms atoms s = Some caps -> List.length caps = List.length (filter a_capture atoms).
Proof.
  revert s caps. induction atoms as [|a atoms IH]; intros s caps H.
  - simpl in H. destruct s; inversion H; reflexivity.
  - destruct (match_atoms_cons a atoms s caps H) as (n & caps' & _ & Hm & ->).
    simpl. destruct (a_capture a); simpl; rewrite (IH _ _ Hm); reflexivity.
Qed.

(** A last capturing [+] group takes a non-empty suffix of the input. *)
Lemma match_atoms_last_capture (atoms : list atom) (last : atom) (s : list ascii)
      (caps : list (list ascii)) :
  a_capture last = true -> min_reps last = 1%nat ->
  match_atoms (atoms ++ [last]) s = Some caps ->
  exists pre t caps0, s = pre ++ t /\ t <> [] /\ caps = caps0 ++ [t].
Proof.
  intros Hcap Hmin. revert s caps.
  induction atoms as [|a atoms IH]; intros s caps H; simpl in H.
  - destruct (match_atoms_cons last [] s caps H) as (n & caps' & Hn & Hm & Hc).
    simpl in Hm. destruct (skipn n s) as [|x r] eqn:Esk; [|discriminate Hm].
    inversion Hm; subst caps'. rewrite Hcap in Hc. subst caps.
    pose proof (max_reps_le last s) as Hle.
    exists [], (firstn n s), []. repeat split.
    + rewrite <- (firstn_skipn n s) at 1. rewrite Esk, app_nil_r. reflexivity.
    + intros He. apply (f_equal (@List.length ascii)) in He.
      rewrite length_firstn in He. simpl in He. lia.
  - destruct (match_atoms_cons a (atoms ++ [last]) s caps H) as (n & caps' & _ & Hm & Hc).
    destruct (IH _ _ Hm) as (pre & t & caps0 & Hs & Ht & Hcs).
    exists (firstn n s ++ pre), t, (if a_capture a then firstn n s :: caps0 else caps0).
    repeat split; [|exact Ht|].
    + rewrite <- app_assoc, <- Hs, firstn_skipn. reflexivity.
    + subst caps caps'. destruct (a_capture a); reflexivity.
Qed.

(** *** Trimmed strings *)

Lemma drop_ws_head (l : list ascii) :
  match drop_ws l with [] => True | c :: _ => is_ws c = false end.
Proof.
  induction l as [|c l IH]; simpl; [exact I|].
  destruct (is_ws c) eqn:E; [exact IH|exact E].
Qed.

Lemma drop_ws_nil (l : list ascii) : drop_ws l = [] -> forallb is_ws l = true.
Proof.
  induction l as [|c l IH]; simpl; [reflexivity|].
  destruct (is_ws c); [exact IH|discriminate].
Qed.

Lemma trim_nil (l : list ascii) : trim l = [] -> forallb is_ws l = true.
Proof.
  unfold trim. intros H.
  assert (H1 : drop_ws (rev (drop_ws l)) = []).
  { rewrite <- (rev_involutive (drop_ws (rev (drop_ws l)))), H. reflexivity. }
  apply drop_ws_nil in H1.
  pose proof (drop_ws_head l) as Hh.
  destruct (drop_ws l) as [|c r] eqn:E.
  - apply drop_ws_nil, E.
  - simpl in H1. rewrite forallb_app in H1. apply andb_true_iff in H1 as [_ H1].
    simpl in H1. rewrite Hh in H1. discriminate H1.
Qed.

(** A non-empty suffix of a trimmed string is not blank. *)
Lemma trim_suffix (x pre t : list ascii) :
  trim x = pre ++ t -> t <> [] -> trim t <> [].
Proof.
  intros Hx Ht Htt. apply trim_nil in Htt.
  unfold trim in Hx.
  pose proof (drop_ws_head (rev (drop_ws x))) as Hh.
  assert (Hd : drop_ws (rev (drop_ws x)) = rev t ++ rev pre).
  { rewrite <- rev_app_distr, <- Hx, rev_involutive. reflexivity. }
  rewrite Hd in Hh.
  destruct (rev t) as [|c r] eqn:Er.
  - apply Ht. rewrite <- (rev_involutive t), Er. reflexivity.
  - assert (Hin : In c t) by (apply in_rev; rewrite Er; left; reflexivity).
    simpl in Hh. rewrite (proj1 (forallb_forall _ t) Htt c Hin) in Hh. discriminate Hh.
Qed.

(** *** Division by zero in the quick-entry parser *)

Lemma titled_match_title (atoms : list atom) (x a t : list ascii) (r : list (list ascii)) :
  List.length (filter a_capture atoms) = 1%nat ->
  match_atoms (atoms ++ [group is_dot_char Plus]) (trim x) = Some (a :: t :: r) ->
  trim t <> [].
Proof.
  intros Hlen H.
  pose proof (match_atoms_caps_len _ _ _ H) as Hc.
  rewrite filter_app, length_app, Hlen in Hc. simpl in Hc.
  destruct r; [|discriminate Hc].
  destruct (match_atoms_last_capture atoms (group is_dot_char Plus) (trim x) _
              eq_refl eq_refl H) as (pre & t' & caps0 & Hx & Ht & Hcs).
  change [a; t] with ([a] ++ [t]) in Hcs. apply app_inj_tail in Hcs as [_ Heq].
  subst t'. exact (trim_suffix x pre t Hx Ht).
Qed.

Lemma finish_titled_invalid (a t : list ascii) :
  trim t <> [] -> evaluateMath (trim a) = None ->
  finish_titled a t = ParseError msg_invalid_amount.
Proof.
  intros Ht He. unfold finish_titled.
  destruct (trim t); [contradiction|]. rewrite He. reflexivity.
Qed.

Lemma finish_simple_invalid (a t : list ascii) :
  evaluateMath (trim a) = None -> finish_simple a t = ParseError msg_invalid_amount.
Proof. intros He. unfold finish_simple. rewrite He. reflexivity. Qed.

(** C4 (amended): whenever the amount segment captured by the quick-entry
    pattern that decides the input divides by a zero numeral,
    [parseLineItem] returns the structured failure [Invalid amount], the
    message it gives for every amount that fails to evaluate or is not
    positive; it neither throws nor returns a NaN or infinite amount. *)
Theorem parseLineItem_div_zero (input : string) (a : list ascii) :
  matched_amount input = Some a -> divides_by_zero a ->
  parseLineItem input = ParseError msg_invalid_amount.
Proof.
  unfold matched_amount, parseLineItem. intros Hm Hdz.
  pose proof (evaluateMath_div_zero a Hdz) as Hev. rewrite <- evaluateMath_trim in Hev.
  destruct (trim (list_ascii_of_string input)) as [|c0 r0] eqn:Et; [discriminate Hm|].
  destruct (match_atoms dollarPattern (c0 :: r0)) as [[|a1 [|t1 r1]]|] eqn:E1;
    cbv beta iota in Hm |- *.
  3:{ injection Hm as <-. apply finish_titled_invalid; [|exact Hev].
      apply (titled_match_title
               [lit "$"%char Opt; cls is_ws Star; group is_amount_char Plus; cls is_ws Star;
                lit "-"%char One; cls is_ws Star] (list_ascii_of_string input) a1 t1 r1);
        [reflexivity|rewrite Et; exact E1]. }
  all: destruct (match_atoms numberPattern (c0 :: r0)) as [[|a2 [|t2 r2]]|] eqn:E2;
    cbv beta iota in Hm |- *.
  all: try (injection Hm as <-; apply finish_titled_invalid; [|exact Hev];
            apply (titled_match_title [group is_amount_char Plus; cls is_ws Plus]
                     (list_ascii_of_string input) a2 t2 r2);
            [reflexivity|rewrite Et; exact E2]).
  all: destruct (match_atoms simplePattern (c0 :: r0)) as [[|a3 [|t3 r3]]|] eqn:E3;
    cbv beta iota in Hm |- *; try discriminate Hm.
  all: injection Hm as <-; apply finish_simple_invalid; exact Hev.
Qed.

Lemma parseLineItem_div_zero_witness :
  matched_amount "10/0 something" = Some (list_ascii_of_string "10/0") /\
  divides_by_zero (list_ascii_of_string "10/0") /\
  parseLineItem "10/0 something" = ParseError msg_invalid_amount.
Proof.
  assert (Hm : matched_amount "10/0 something" = Some (list_ascii_of_string "10/0"))
    by (vm_compute; reflexivity).
  assert (Hd : divides_by_zero (list_ascii_of_string "10/0")).
  { exists (list_ascii_of_string "10"), (list_ascii_of_string "0"), [].
    repeat split; vm_compute; reflexivity. }
  split; [exact Hm|]. split; [exact Hd|].
  exact (parseLineItem_div_zero "10/0 something" (list_ascii_of_string "10/0") Hm Hd).
Defined.

(** C4 (counterexample): the failure for ["10/0 something"] carries the
    generic message ["Invalid amount"], the same as for ["0 something"],
    which divides by nothing: the message does not mention division. *)
Lemma parseLineItem_div_zero_cex :
  parseLineItem "10/0 something" = ParseError "Invalid amount" /\
  parseLineItem "0 something" = ParseError "Invalid amount".
Proof. split; vm_compute; reflexivity. Qed.

(* ================================================================= *)
(** ** Properties of the screens, the store and the parser *)

(** X4: the Sold and Open tabs of the home screen split the flips: between
    them they list every flip exactly once. *)
Theorem filteredFlips_partition (flips : list Flip) :
  Permutation (filteredFlips SoldTab flips ++ filteredFlips OpenTab flips) flips.
Proof.
  induction flips as [|f rest IH]; simpl; [constructor|].
  destruct (is_sold f); simpl.
  - constructor; exact IH.
  - apply Permutation_sym, Permutation_cons_app, Permutation_sym, IH.
Qed.

Lemma set_has_In (s : list Z) (y : Z) : set_has s y = true <-> In y s.
Proof.
  unfold set_has; rewrite existsb_exists; split.
  - intros [x [Hx Hxy]]; apply Z.eqb_eq in Hxy; subst; exact Hx.
  - intros H; exists y; split; [exact H | apply Z.eqb_refl].
Qed.

Lemma set_has_app (s t : list Z) (y : Z) : set_has (s ++ t) y = set_has s y || set_has t y.
Proof. unfold set_has; apply existsb_app. Qed.

Lemma set_has_delete (s : list Z) (x y : Z) :
  set_has (set_delete s x) y = negb (Z.eqb y x) && set_has s y.
Proof.
  induction s as [|z s IH]; simpl; [now rewrite andb_false_r|].
  destruct (Z.eqb z x) eqn:Ezx; simpl; rewrite IH.
  - apply Z.eqb_eq in Ezx; subst. destruct (Z.eqb y x); reflexivity.
  - destruct (Z.eqb y z) eqn:Eyz; simpl; [|reflexivity].
    apply Z.eqb_eq in Eyz; subst; rewrite Ezx; reflexivity.
Qed.

Lemma set_delete_NoDup (s : list Z) (x : Z) : NoDup s -> NoDup (set_delete s x).
Proof. intros H; apply NoDup_filter, H. Qed.

Lemma set_add_spec (s : list Z) (x : Z) :
  NoDup s -> NoDup (set_add s x) /\
  (forall y, set_has (set_add s x) y = Z.eqb y x || set_has s y).
Proof.
  intros Hs; unfold set_add.
  destruct (set_has s x) eqn:Ex.
  - split; [exact Hs|]. intros y. destruct (Z.eqb y x) eqn:Eyx; [|reflexivity].
    apply Z.eqb_eq in Eyx; subst; exact Ex.
  - split.
    + apply NoDup_app; [exact Hs | repeat constructor; simpl; tauto |].
      intros y Hy [<-|[]]. apply set_has_In in Hy; congruence.
    + intros y; rewrite set_has_app; simpl; rewrite orb_false_r, orb_comm; reflexivity.
Qed.

Lemma set_delete_add_absent (s : list Z) (x : Z) :
  set_has s x = false -> set_delete (set_add s x) x = s.
Proof.
  intros Hx; unfold set_add; rewrite Hx; unfold set_delete.
  rewrite filter_app; simpl; rewrite Z.eqb_refl; simpl; rewrite app_nil_r.
  apply forallb_filter_id, forallb_forall.
  intros y Hy; destruct (Z.eqb y x) eqn:E; [|reflexivity].
  apply Z.eqb_eq in E; subst; apply set_has_In in Hy; congruence.
Qed.

(** X6: on a selection without duplicates, [toggleFlipSelection] flips the
    membership of the given id and of no other, keeps the selection free of
    duplicates, and toggling an unselected id twice gives back the same
    selection. *)
Theorem toggleFlipSelection_spec (selectedFlips : list Z) (flipId : Z)
    (Hnodup : NoDup selectedFlips) :
  let toggled := toggleFlipSelection selectedFlips flipId in
  NoDup toggled /\
  (forall y, set_has toggled y =
             if Z.eqb y flipId then negb (set_has selectedFlips flipId)
             else set_has selectedFlips y) /\
  (set_has selectedFlips flipId = false ->
   toggleFlipSelection toggled flipId = selectedFlips).
Proof.
  cbv zeta; unfold toggleFlipSelection.
  destruct (set_has selectedFlips flipId) eqn:Ex.
  - split; [apply set_delete_NoDup, Hnodup|split; [|discriminate]].
    intros y; rewrite set_has_delete.
    destruct (Z.eqb y flipId) eqn:E; reflexivity.
  - destruct (set_add_spec selectedFlips flipId Hnodup) as [Hn Hh].
    split; [exact Hn|split].
    + intros y; rewrite Hh; destruct (Z.eqb y flipId) eqn:E; [|reflexivity].
      apply Z.eqb_eq in E; subst; reflexivity.
    + intros _. assert (Hin : set_has (set_add selectedFlips flipId) flipId = true)
        by (rewrite Hh, Z.eqb_refl; reflexivity).
      rewrite Hin; apply set_delete_add_absent, Ex.
Qed.

Lemma set_of_list_fold (xs acc : list Z) :
  NoDup acc ->
  NoDup (fold_left set_add xs acc) /\
  (forall y, set_has (fold_left set_add xs acc) y = set_has acc y || set_has xs y).
Proof.
  revert acc; induction xs as [|x xs IH]; intros acc Hacc; simpl.
  - split; [exact Hacc | intros y; rewrite orb_false_r; reflexivity].
  - destruct (set_add_spec acc x Hacc) as [Hn Hh].
    destruct (IH _ Hn) as [Hn' Hh']; split; [exact Hn'|].
    intros y; rewrite Hh', Hh.
    change (set_has (x :: xs) y) with (Z.eqb y x || set_has xs y).
    destruct (Z.eqb y x), (set_has acc y); reflexivity.
Qed.

(** X7: [selectAllFlips] selects exactly the ids of the visible flips, each
    once. *)
Theorem selectAllFlips_spec (filtered : list Flip) :
  NoDup (selectAllFlips filtered) /\
  (forall y, set_has (selectAllFlips filtered) y = existsb (fun f => Z.eqb (id f) y) filtered).
Proof.
  unfold selectAllFlips, set_of_list.
  destruct (set_of_list_fold (map id filtered) [] (NoDup_nil _)) as [Hn Hh].
  split; [exact Hn|].
  intros y; rewrite Hh; change (set_has [] y) with false; rewrite orb_false_l.
  clear Hn Hh; unfold set_has.
  induction filtered as [|f rest IH]; simpl; [reflexivity|].
  rewrite IH, Z.eqb_sym; reflexivity.
Qed.

Lemma filter_filter_andb {A} (p q : A -> bool) (l : list A) :
  filter p (filter q l) = filter (fun x => q x && p x) l.
Proof.
  induction l as [|x l IH]; simpl; [reflexivity|].
  destruct (q x); simpl; [destruct (p x); simpl; rewrite IH; reflexivity | exact IH].
Qed.

(** X8: the delete loop of [handleBulkDelete] removes exactly the selected
    flips and keeps the others in order; the line items of the deleted flips
    go away only when the connection enforces foreign keys. *)
Theorem bulkDelete_spec (fk : bool) (selectedFlips : list Z) (st : Store) :
  flips_tbl (bulkDelete fk selectedFlips st) =
    filter (fun f => negb (set_has selectedFlips (id f))) (flips_tbl st) /\
  items_tbl (bulkDelete fk selectedFlips st) =
    (if fk then filter (fun it => negb (set_has selectedFlips (flip_id it))) (items_tbl st)
     else items_tbl st).
Proof.
  unfold bulkDelete; revert st; induction selectedFlips as [|x sel IH]; intros st; simpl.
  - split; [symmetry; apply forallb_filter_id, forallb_forall; reflexivity|].
    destruct fk; [symmetry; apply forallb_filter_id, forallb_forall; reflexivity|reflexivity].
  - destruct (IH (deleteFlip fk x st)) as [H1 H2]; rewrite H1, H2; clear H1 H2 IH.
    unfold deleteFlip; simpl; split.
    + rewrite filter_filter_andb; apply filter_ext; intros f.
      unfold set_has; simpl; rewrite Z.eqb_sym.
      destruct (Z.eqb x (id f)), (existsb (Z.eqb (id f)) sel); reflexivity.
    + destruct fk; [|reflexivity].
      rewrite filter_filter_andb; apply filter_ext; intros it.
      unfold set_has; simpl; rewrite Z.eqb_sym.
      destruct (Z.eqb x (flip_id it)), (existsb (Z.eqb (flip_id it)) sel); reflexivity.
Qed.

Lemma find_app_none {A} (p : A -> bool) (l r : list A) :
  find p l = None -> find p (l ++ r) = find p r.
Proof.
  induction l as [|x l IH]; simpl; [reflexivity|].
  destruct (p x); [discriminate|exact IH].
Qed.

Lemma find_none_forall {A} (p : A -> bool) (l : list A) :
  Forall (fun x => p x = false) l -> find p l = None.
Proof. induction 1 as [|x l Hx _ IH]; simpl; [reflexivity|now rewrite Hx]. Qed.

Lemma find_app_some {A} (p : A -> bool) (l r : list A) (x : A) :
  find p l = Some x -> find p (l ++ r) = Some x.
Proof.
  induction l as [|y l IH]; simpl; [discriminate|].
  destruct (p y); [exact (fun H => H)|exact IH].
Qed.


Lemma getFlipById_fresh (st : Store) (fid : Z) :
  flip_ids_below st -> (flips_seq st < fid)%Z -> getFlipById fid st = None.
Proof.
  intros H Hlt; unfold getFlipById; apply find_none_forall.
  eapply Forall_impl; [|exact H]; intros f Hf; simpl in *; apply Z.eqb_neq; lia.
Qed.

Lemma getFlipById_id (st : Store) (fid : Z) (f : Flip) :
  getFlipById fid st = Some f -> id f = fid /\ In f (flips_tbl st).
Proof.
  unfold getFlipById; intros H; apply find_some in H as [Hin Heq].
  apply Z.eqb_eq in Heq; auto.
Qed.

(** X10: after [addLineItem], [getLineItemsByFlip] of the item's flip lists
    the new row and the previous ones, and the lists of the other flips
    hold the same rows as before. *)
Theorem addLineItem_lookup (now : string) (lineItem : NewLineItem) (st : Store)
    (order : list LineItem -> list LineItem)
    (Horder : forall l, Permutation (order l) l) :
  let (newId, st') := addLineItem now lineItem st in
  newId = (items_seq st + 1)%Z /\
  getFlipById (ni_flip_id lineItem) st' = getFlipById (ni_flip_id lineItem) st /\
  Permutation (getLineItemsByFlip order (ni_flip_id lineItem) st')
    (mk_item newId (ni_flip_id lineItem) (ni_title lineItem) (ni_amount lineItem)
             (ni_category lineItem) (str_truthy (ni_date lineItem)) now now
     :: getLineItemsByFlip order (ni_flip_id lineItem) st) /\
  (forall flipId, flipId <> ni_flip_id lineItem ->
     Permutation (getLineItemsByFlip order flipId st') (getLineItemsByFlip order flipId st)).
Proof.
  unfold addLineItem, getLineItemsByFlip; simpl.
  split; [reflexivity|split; [reflexivity|split]].
  - rewrite filter_app; simpl; rewrite Z.eqb_refl.
    eapply Permutation_trans; [apply Horder|].
    eapply Permutation_trans; [apply Permutation_sym, Permutation_cons_append|].
    constructor; apply Permutation_sym, Horder.
  - intros flipId Hne. rewrite filter_app; simpl.
    destruct (Z.eqb (ni_flip_id lineItem) flipId) eqn:E; [apply Z.eqb_eq in E; congruence|].
    rewrite app_nil_r.
    eapply Permutation_trans; [apply Horder|apply Permutation_sym, Horder].
Qed.

Lemma filter_none {A} (p : A -> bool) (l : list A) :
  Forall (fun x => p x = false) l -> filter p l = [].
Proof. induction 1 as [|x l Hx _ IH]; simpl; [reflexivity|now rewrite Hx]. Qed.

Lemma str_truthy_idem (s : option string) : str_truthy (str_truthy s) = str_truthy s.
Proof. destruct s as [[|c r]|]; reflexivity. Qed.

Lemma copy_line_items_spec (now_at : nat -> string) (k : nat) (n : Z)
    (items : list LineItem) (st : Store) :
  let st' := copy_line_items now_at k n items st in
  flips_tbl st' = flips_tbl st /\
  (forall g, g <> n ->
     filter (fun it => Z.eqb (flip_id it) g) (items_tbl st') =
     filter (fun it => Z.eqb (flip_id it) g) (items_tbl st)) /\
  map item_content (filter (fun it => Z.eqb (flip_id it) n) (items_tbl st')) =
    map item_content (filter (fun it => Z.eqb (flip_id it) n) (items_tbl st)) ++
    map item_content items.
Proof.
  cbv zeta; revert k st; induction items as [|item rest IH]; intros k st; simpl.
  - split; [reflexivity|split; [reflexivity|now rewrite app_nil_r]].
  - destruct (IH (S k) (mk_store (flips_tbl st)
        (items_tbl st ++ [mk_item (items_seq st + 1) n (title item) (amount item)
                                  (category_of item) (str_truthy (date item))
                                  (now_at k) (now_at k)])
        (flips_seq st) (items_seq st + 1))) as [H1 [H2 H3]].
    simpl in H1, H2, H3. split; [exact H1|split].
    + intros g Hg; rewrite (H2 g Hg), filter_app; simpl.
      destruct (Z.eqb n g) eqn:E; [apply Z.eqb_eq in E; congruence|].
      apply app_nil_r.
    + rewrite H3, filter_app; simpl; rewrite Z.eqb_refl, !map_app; simpl.
      unfold item_content at 2; simpl; rewrite str_truthy_idem, <- app_assoc; reflexivity.
Qed.

Lemma createFlip_lookup_aux (now : string) (flip : NewFlip) (st : Store)
    (Hids : flip_ids_below st) :
  let (newId, st') := createFlip now flip st in
  getFlipById newId st = None /\
  getFlipById newId st' =
    Some (mk_flip newId (int_truthy (nf_year flip)) (str_truthy (nf_make flip))
                  (str_truthy (nf_model flip)) (str_truthy (nf_vin flip))
                  (int_truthy (nf_miles flip)) (nf_buy_price flip)
                  (num_truthy (nf_sell_price flip)) (str_truthy (nf_sold_date flip))
                  now now) /\
  (forall fid, fid <> newId -> getFlipById fid st' = getFlipById fid st) /\
  flip_ids_below st'.
Proof.
  unfold createFlip; simpl.
  assert (Hfresh : getFlipById (flips_seq st + 1) st = None)
    by (apply getFlipById_fresh; [exact Hids|lia]).
  split; [exact Hfresh|split; [|split]].
  - unfold getFlipById in *; simpl. rewrite find_app_none by exact Hfresh.
    simpl; rewrite Z.eqb_refl; reflexivity.
  - intros fid Hne; unfold getFlipById; simpl.
    destruct (find (fun f => Z.eqb (id f) fid) (flips_tbl st)) eqn:E.
    + apply find_app_some, E.
    + rewrite find_app_none by exact E; simpl.
      destruct (Z.eqb (flips_seq st + 1) fid) eqn:E2; [apply Z.eqb_eq in E2; congruence|reflexivity].
  - unfold flip_ids_below; simpl; apply Forall_app; split.
    + eapply Forall_impl; [|exact Hids]; simpl; intros a Ha; simpl in Ha; lia.
    + repeat constructor; simpl; lia.
Qed.

Lemma duplicateFlip_aux (order : list LineItem -> list LineItem)
    (now_at : nat -> string) (fid : Z) (st : Store) (originalFlip : Flip)
    (Horder : forall l, Permutation (order l) l)
    (Hids : flip_ids_below st) (Hitems : item_flips_below st)
    (Hfound : getFlipById fid st = Some originalFlip) :
  exists newFlipId st',
    duplicateFlip order now_at fid st = Ok (newFlipId, st') /\
    newFlipId <> fid /\
    getFlipById fid st' = Some originalFlip /\
    getLineItemsByFlip order fid st' = getLineItemsByFlip order fid st /\
    getFlipById newFlipId st' =
      Some (mk_flip newFlipId (int_truthy (year originalFlip))
              (str_truthy (make originalFlip)) (str_truthy (model originalFlip))
              (str_truthy (vin originalFlip)) (int_truthy (miles originalFlip))
              (buy_price originalFlip) None None (now_at O) (now_at O)) /\
    Permutation (map item_content (getLineItemsByFlip order newFlipId st'))
                (map item_content (getLineItemsByFlip order fid st)).
Proof.
  pose proof (getFlipById_id _ _ _ Hfound) as [Hid Hin].
  assert (Hle : (fid <= flips_seq st)%Z).
  { unfold flip_ids_below in Hids; rewrite Forall_forall in Hids.
    rewrite <- Hid; exact (Hids _ Hin). }
  pose proof (createFlip_lookup_aux (now_at O)
    (mk_new_flip (year originalFlip) (make originalFlip) (model originalFlip)
                 (vin originalFlip) (miles originalFlip) (buy_price originalFlip) None None)
    st Hids) as Hc.
  unfold duplicateFlip; rewrite Hfound.
  destruct (createFlip _ _ st) as [n st1] eqn:Ecreate.
  destruct Hc as [_ [Hnew [Hold _]]]; simpl in Hnew.
  assert (En : n = (flips_seq st + 1)%Z /\ flips_tbl st1 = flips_tbl st ++ _ /\
                items_tbl st1 = items_tbl st)
    by (unfold createFlip in Ecreate; injection Ecreate; intros <- <-; simpl; eauto).
  destruct En as [En [_ Eitems1]].
  destruct (copy_line_items_spec now_at 1 n (getLineItemsByFlip order fid st) st1)
    as [Hf [Hg Hn]].
  set (st' := copy_line_items now_at 1 n (getLineItemsByFlip order fid st) st1) in *.
  assert (Hne : n <> fid) by lia.
  exists n, st'; split; [reflexivity|split; [exact Hne|split; [|split; [|split]]]].
  - unfold getFlipById at 1; rewrite Hf; fold (getFlipById fid st1).
    rewrite Hold by exact (not_eq_sym Hne); exact Hfound.
  - unfold getLineItemsByFlip at 1; rewrite (Hg fid (not_eq_sym Hne)), Eitems1.
    reflexivity.
  - unfold getFlipById; rewrite Hf; fold (getFlipById n st1); exact Hnew.
  - assert (Hnone : filter (fun it => Z.eqb (flip_id it) n) (items_tbl st1) = []).
    { rewrite Eitems1; apply filter_none.
      eapply Forall_impl; [|exact Hitems]; intros it Hit; simpl in Hit.
      apply Z.eqb_neq; lia. }
    rewrite Hnone in Hn; simpl in Hn.
    unfold getLineItemsByFlip at 1.
    eapply Permutation_trans; [apply Permutation_map, Horder|].
    rewrite Hn; apply Permutation_refl.
Qed.

(** X9: [createFlip] returns an id no flip had; [getFlipById] on it gives the
    new row, with the falsy optional fields stored as null, and every other
    lookup is unchanged. *)
Theorem createFlip_lookup (now : string) (flip : NewFlip) (st : Store)
    (Hids : flip_ids_below st) :
  let (newId, st') := createFlip now flip st in
  getFlipById newId st = None /\
  getFlipById newId st' =
    Some (mk_flip newId (int_truthy (nf_year flip)) (str_truthy (nf_make flip))
                  (str_truthy (nf_model flip)) (str_truthy (nf_vin flip))
                  (int_truthy (nf_miles flip)) (nf_buy_price flip)
                  (num_truthy (nf_sell_price flip)) (str_truthy (nf_sold_date flip))
                  now now) /\
  (forall fid, fid <> newId -> getFlipById fid st' = getFlipById fid st) /\
  flip_ids_below st'.
Proof. exact (createFlip_lookup_aux now flip st Hids). Qed.

(** X11: duplicating an existing flip creates a flip with a new id, the same
    buy price and vehicle fields, no sell price and no sold date, and one
    copy of each line item (title, amount, category, date); the original
    flip and its line items are unchanged. *)
Theorem duplicateFlip_copy (order : list LineItem -> list LineItem)
    (now_at : nat -> string) (fid : Z) (st : Store) (originalFlip : Flip)
    (Horder : forall l, Permutation (order l) l)
    (Hids : flip_ids_below st) (Hitems : item_flips_below st)
    (Hfound : getFlipById fid st = Some originalFlip) :
  exists newFlipId st',
    duplicateFlip order now_at fid st = Ok (newFlipId, st') /\
    newFlipId <> fid /\
    getFlipById fid st' = Some originalFlip /\
    getLineItemsByFlip order fid st' = getLineItemsByFlip order fid st /\
    getFlipById newFlipId st' =
      Some (mk_flip newFlipId (int_truthy (year originalFlip))
              (str_truthy (make originalFlip)) (str_truthy (model originalFlip))
              (str_truthy (vin originalFlip)) (int_truthy (miles originalFlip))
              (buy_price originalFlip) None None (now_at O) (now_at O)) /\
    Permutation (map item_content (getLineItemsByFlip order newFlipId st'))
                (map item_content (getLineItemsByFlip order fid st)).
Proof. exact (duplicateFlip_aux order now_at fid st originalFlip Horder Hids Hitems Hfound). Qed.


(** *** Binary64 rounding of numbers of moderate size *)

Lemma pow2_pos (e : Z) : 0 < pow2 e.
Proof. apply Qpower_0_lt. reflexivity. Qed.

Lemma pow2_nz (e : Z) : ~ pow2 e == 0.
Proof. intros H. pose proof (pow2_pos e). lra. Qed.

Lemma pow2_nonneg (n : Z) : (0 <= n)%Z -> pow2 n == inject_Z (2 ^ n).
Proof. intros H. unfold pow2. rewrite Zpower_Qpower by exact H. reflexivity. Qed.

Lemma pow2_le (a b : Z) : (a <= b)%Z -> pow2 a <= pow2 b.
Proof. intros H. apply Qpower_le_compat_l; [exact H|lra]. Qed.

Lemma pow2_div_int (z e : Z) :
  (e <= 0)%Z -> inject_Z z / pow2 e == inject_Z (z * 2 ^ (- e)).
Proof.
  intros H. rewrite inject_Z_mult, <- pow2_nonneg by lia.
  unfold pow2. replace e with (- (- e))%Z at 1 by lia.
  rewrite Qpower_opp. field. apply Qpower_not_0. lra.
Qed.

Lemma round_half_even_err (x : Q) : Qabs (inject_Z (round_half_even x) - x) <= 1 # 2.
Proof.
  unfold round_half_even.
  pose proof (Qfloor_le x) as H1. pose proof (Qlt_floor x) as H2.
  rewrite inject_Z_plus in H2. change (inject_Z 1) with 1 in H2.
  set (f := Qfloor x) in *.
  apply Qabs_Qle_condition.
  destruct (x - inject_Z f ?= 1 # 2) eqn:E.
  - apply Qeq_alt in E.
    destruct (Z.even f); [|rewrite inject_Z_plus; change (inject_Z 1) with 1]; split; lra.
  - apply Qlt_alt in E. split; lra.
  - apply Qgt_alt in E. rewrite inject_Z_plus; change (inject_Z 1) with 1. split; lra.
Qed.

Lemma round_half_even_int (x : Q) (z : Z) : x == inject_Z z -> round_half_even x = z.
Proof.
  intros Hx. unfold round_half_even.
  rewrite (Qfloor_comp x (inject_Z z) Hx), Qfloor_Z.
  replace (x - inject_Z z ?= 1 # 2) with Lt; [reflexivity|].
  symmetry; apply (proj1 (Qlt_alt _ _)). rewrite Hx. set (w := inject_Z z). lra.
Qed.

Lemma Qlog2_floor_lt (q : Q) (k : Z) :
  0 < q -> (0 <= k)%Z -> q < inject_Z (2 ^ k) -> (Qlog2_floor q < k)%Z.
Proof.
  intros Hq Hk Hlt. unfold Qlog2_floor.
  destruct q as [n d]. cbn [Qnum Qden].
  assert (Hn : (0 < n)%Z) by (unfold Qlt in Hq; cbn [Qnum Qden] in Hq; lia).
  assert (Hnd : (n < Zpos d * 2 ^ k)%Z)
    by (unfold Qlt in Hlt; cbn [Qnum Qden inject_Z] in Hlt; lia).
  assert (He : (Z.log2 n <= k + Z.log2 (Zpos d))%Z).
  { rewrite <- Z.log2_mul_pow2 by lia. apply Z.log2_le_mono. lia. }
  set (e := (Z.log2 n - Z.log2 (Zpos d))%Z).
  destruct (Qle_bool (pow2 e) (n # d)) eqn:E; [|lia].
  apply Qle_bool_iff in E.
  destruct (Z.eq_dec e k) as [Ek|Ek]; [|lia].
  rewrite Ek, pow2_nonneg in E by exact Hk.
  exfalso. exact (Qlt_not_le _ _ Hlt E).
Qed.

Lemma Qabs_inject_Z (z : Z) : Qabs (inject_Z z) == inject_Z (Z.abs z).
Proof. symmetry; apply Zabs_Qabs. Qed.

(** An integer of fewer than 54 bits is a binary64 value. *)
Lemma round_double_int (q : Q) (z : Z) :
  q == inject_Z z -> (Z.abs z < 2 ^ 53)%Z -> round_double q == q.
Proof.
  intros Hq Hz. unfold round_double.
  destruct (Qeq_bool q 0) eqn:E0; [apply Qeq_bool_iff in E0; rewrite E0; reflexivity|].
  assert (Hz0 : z <> 0%Z).
  { intros Ez. rewrite Ez in Hq. rewrite (proj2 (Qeq_bool_iff q 0) Hq) in E0. discriminate. }
  assert (Habs : Qabs q == inject_Z (Z.abs z)) by (rewrite Hq; apply Qabs_inject_Z).
  assert (HL : (Qlog2_floor (Qabs q) < 53)%Z).
  { apply Qlog2_floor_lt; [|lia|].
    - rewrite Habs. change 0 with (inject_Z 0). rewrite <- Zlt_Qlt. lia.
    - rewrite Habs, <- Zlt_Qlt. exact Hz. }
  cbv zeta.
  set (e := Z.max (Qlog2_floor (Qabs q) - 52) (-1074)).
  assert (He : (e <= 0)%Z) by (unfold e; lia).
  assert (Hy : q / pow2 e == inject_Z (z * 2 ^ (- e)))
    by (rewrite Hq; apply pow2_div_int; exact He).
  rewrite (round_half_even_int _ _ Hy), <- Hy.
  field. apply pow2_nz.
Qed.

(** Rounding moves a number below [2 ^ k] by at most half a unit in the
    last place, a unit being at most [2 ^ (k - 53)]. *)
Lemma round_double_err (q : Q) (k : Z) :
  (0 <= k)%Z -> Qabs q < inject_Z (2 ^ k) ->
  Qabs (round_double q - q) <= pow2 (Z.max (k - 53) (-1074)) * (1 # 2).
Proof.
  intros Hk Hq. pose proof (pow2_pos (Z.max (k - 53) (-1074))) as HP.
  unfold round_double.
  destruct (Qeq_bool q 0) eqn:E0.
  - apply Qeq_bool_iff in E0. rewrite E0. change (Qabs (0 - 0)) with 0. lra.
  - assert (Hn : ~ q == 0) by (intros H; apply Qeq_bool_iff in H; congruence).
    assert (Hq0 : 0 < Qabs q).
    { apply Qnot_le_lt. intros H. apply Hn. apply Qabs_Qle_condition in H. lra. }
    cbv zeta.
    set (e := Z.max (Qlog2_floor (Qabs q) - 52) (-1074)).
    assert (HL : (Qlog2_floor (Qabs q) < k)%Z) by (apply Qlog2_floor_lt; assumption).
    assert (He : (e <= Z.max (k - 53) (-1074))%Z) by (unfold e; lia).
    pose proof (pow2_le _ _ He) as Hp.
    pose proof (pow2_pos e) as Hpe.
    set (y := q / pow2 e).
    assert (Hy : q == y * pow2 e) by (unfold y; field; apply pow2_nz).
    pose proof (round_half_even_err y) as Hr.
    assert (Heq : inject_Z (round_half_even y) * pow2 e - q ==
                  (inject_Z (round_half_even y) - y) * pow2 e) by (rewrite Hy; ring).
    rewrite Heq, Qabs_Qmult, (Qabs_pos (pow2 e)) by lra.
    apply Qle_trans with ((1 # 2) * pow2 e).
    + apply Qmult_le_compat_r; [exact Hr|lra].
    + rewrite Qmult_comm. apply Qmult_le_compat_r; [exact Hp|lra].
Qed.

Lemma fin_moderate (q : Q) :
  Qabs q < inject_Z (2 ^ 53) -> fin q = Fin (Qred (round_double q)).
Proof.
  intros Hb. unfold fin.
  assert (Hov : inject_Z (2 ^ 53) < overflow_bound) by (vm_compute; reflexivity).
  assert (H1 : Qle_bool overflow_bound q = false).
  { apply not_true_iff_false; intros H; apply Qle_bool_iff in H.
    pose proof (Qle_Qabs q). lra. }
  assert (H2 : Qle_bool q (- overflow_bound) = false).
  { apply not_true_iff_false; intros H; apply Qle_bool_iff in H.
    pose proof (Qle_Qabs (- q)) as Ha; rewrite Qabs_opp in Ha. lra. }
  rewrite H1, H2. reflexivity.
Qed.

Lemma Qred_inject_Z (z : Z) : Qred (inject_Z z) = inject_Z z.
Proof.
  unfold Qred, inject_Z.
  pose proof (Z.ggcd_gcd z 1) as Hg; pose proof (Z.ggcd_correct_divisors z 1) as Hd.
  destruct (Z.ggcd z 1) as [g [aa bb]]; simpl in Hg, Hd.
  rewrite Z.gcd_1_r in Hg; subst g; destruct Hd as [Ha Hb].
  rewrite Z.mul_1_l in Ha, Hb; subst; reflexivity.
Qed.

Lemma fin_int (q : Q) (z : Z) :
  q == inject_Z z -> (Z.abs z < 2 ^ 53)%Z -> fin q = Fin (inject_Z z).
Proof.
  intros Hq Hz.
  rewrite fin_moderate.
  - rewrite (Qred_complete _ _ (Qeq_trans _ _ _ (round_double_int q z Hq Hz) Hq)).
    rewrite Qred_inject_Z; reflexivity.
  - rewrite Hq, Qabs_inject_Z, <- Zlt_Qlt. exact Hz.
Qed.

Lemma inject_Z_sub (a b : Z) : inject_Z (a - b) = inject_Z a - inject_Z b.
Proof. unfold Z.sub; rewrite inject_Z_plus, inject_Z_opp; reflexivity. Qed.

(** X14: for two dates less than 2^26 days (about 183,000 years) apart,
    [getDaysToSell] counts the started 24-hour periods between them: the
    [d] it returns satisfies [(d - 1) * 86400000 < sold - created <=
    d * 86400000] in milliseconds.  In that range the subtraction is exact
    and the rounding of the division cannot cross a whole number. *)
Theorem getDaysToSell_ceil (getTime : string -> num) (createdAt : string)
    (soldDate : option string) (sd : string) (c s : Z)
    (Hsd : str_truthy soldDate = Some sd)
    (Hc : getTime createdAt = Fin (inject_Z c)) (Hs : getTime sd = Fin (inject_Z s))
    (Hr : (Z.abs (s - c) < 2 ^ 26 * 86400000)%Z) :
  exists d, getDaysToSell getTime createdAt soldDate = Some (Fin (inject_Z d)) /\
    ((d - 1) * 86400000 < s - c <= d * 86400000)%Z.
Proof.
  change (2 ^ 26 * 86400000)%Z with 5798205849600000%Z in Hr.
  unfold getDaysToSell; rewrite Hsd, Hc, Hs.
  unfold num_sub, num_neg, num_add.
  rewrite (fin_int _ (s - c)) by
    (try (change (2 ^ 53)%Z with 9007199254740992%Z; lia); rewrite inject_Z_sub; reflexivity).
  change (inject_Z (1000 * 60 * 60 * 24)) with (86400000 # 1).
  unfold num_div.
  replace (Qeq_bool (86400000 # 1) 0) with false by reflexivity.
  set (x := (s - c)%Z) in *.
  set (q := inject_Z x / (86400000 # 1)).
  assert (Hq : q * (86400000 # 1) == inject_Z x) by (subst q; field).
  assert (Hxq : - (5798205849600000 # 1) < inject_Z x < 5798205849600000 # 1).
  { split; [change (-(5798205849600000 # 1)) with (inject_Z (-5798205849600000))|
            change (5798205849600000 # 1) with (inject_Z 5798205849600000)];
    rewrite <- Zlt_Qlt; lia. }
  assert (Hqb : Qabs q < inject_Z (2 ^ 26)).
  { apply Qabs_Qlt_condition. change (inject_Z (2 ^ 26)) with (67108864 # 1). lra. }
  rewrite fin_moderate
    by (apply Qabs_Qlt_condition; apply Qabs_Qlt_condition in Hqb;
        change (inject_Z (2 ^ 53)) with (9007199254740992 # 1);
        change (inject_Z (2 ^ 26)) with (67108864 # 1) in Hqb; lra).
  unfold math_ceil.
  set (r := round_double q).
  rewrite (Qceiling_comp (Qred r) r (Qred_correct r)).
  (* the day count of the exact quotient *)
  pose proof (Qle_ceiling q) as Hup. pose proof (Qceiling_lt q) as Hlo.
  set (d := Qceiling q) in *.
  rewrite inject_Z_sub in Hlo; change (inject_Z 1) with 1 in Hlo.
  assert (Hx1 : ((d - 1) * 86400000 < x)%Z).
  { rewrite Zlt_Qlt, inject_Z_mult, inject_Z_sub.
    change (inject_Z 86400000) with (86400000 # 1); change (inject_Z 1) with 1. lra. }
  assert (Hx2 : (x <= d * 86400000)%Z).
  { rewrite Zle_Qle, inject_Z_mult.
    change (inject_Z 86400000) with (86400000 # 1). lra. }
  assert (Hd : (Z.abs d < 2 ^ 53)%Z)
    by (change (2 ^ 53)%Z with 9007199254740992%Z; lia).
  (* the rounded quotient stays in the same day *)
  pose proof (round_double_err q 26 ltac:(lia) Hqb) as Herr.
  assert (Hu : pow2 (Z.max (26 - 53) (-1074)) * (1 # 2) == 1 # 268435456)
    by (vm_compute; reflexivity).
  rewrite Hu in Herr. fold r in Herr. apply Qabs_Qle_condition in Herr.
  assert (Hlo' : inject_Z d - 1 < r).
  { assert (H1 : inject_Z (d * 86400000 - 86400000 + 1) <= inject_Z x) by (rewrite <- Zle_Qle; lia).
    rewrite inject_Z_plus, inject_Z_sub, inject_Z_mult in H1.
    change (inject_Z 86400000) with (86400000 # 1) in H1; change (inject_Z 1) with 1 in H1.
    lra. }
  assert (Hup' : r <= inject_Z d).
  { destruct (Z.eq_dec x (d * 86400000)) as [Ex|Ex].
    - assert (Hqd : q == inject_Z d).
      { subst q. rewrite Ex, inject_Z_mult. change (inject_Z 86400000) with (86400000 # 1).
        field. }
      unfold r. rewrite (round_double_int q d Hqd Hd), Hqd. apply Qle_refl.
    - assert (H1 : inject_Z x <= inject_Z (d * 86400000 - 1)) by (rewrite <- Zle_Qle; lia).
      rewrite inject_Z_sub, inject_Z_mult in H1.
      change (inject_Z 86400000) with (86400000 # 1) in H1; change (inject_Z 1) with 1 in H1.
      lra. }
  assert (Hceil : Qceiling r = d).
  { pose proof (Qle_ceiling r) as H1. pose proof (Qceiling_lt r) as H2.
    rewrite inject_Z_sub in H2; change (inject_Z 1) with 1 in H2.
    assert (H3 : inject_Z (d - 1) < inject_Z (Qceiling r))
      by (rewrite inject_Z_sub; change (inject_Z 1) with 1; lra).
    assert (H4 : inject_Z (Qceiling r - 1) < inject_Z d)
      by (rewrite inject_Z_sub; change (inject_Z 1) with 1; lra).
    rewrite <- Zlt_Qlt in H3, H4. lia. }
  rewrite Hceil.
  exists d; split; [rewrite (fin_int (inject_Z d) d) by (reflexivity || exact Hd); reflexivity|].
  split; assumption.
Qed.

Lemma count_char_app (c : ascii) (a b : string) :
  count_char c (a ++ b) = (count_char c a + count_char c b)%nat.
Proof.
  induction a as [|d a IH]; simpl; [reflexivity|].
  destruct (Ascii.eqb c d); rewrite IH; reflexivity.
Qed.

Lemma count_char_concat (c : ascii) (sep : string) (l : list string) :
  count_char c sep = 0%nat ->
  count_char c (String.concat sep l) = list_sum (map (count_char c) l).
Proof.
  intros Hsep; induction l as [|x l IH]; [reflexivity|].
  destruct l as [|y l].
  - simpl; rewrite Nat.add_0_r; reflexivity.
  - change (String.concat sep (x :: y :: l)) with (x ++ sep ++ String.concat sep (y :: l))%string.
    rewrite !count_char_app, Hsep, IH; reflexivity.
Qed.

Lemma build_update_shape (table : string) (excluded : list string)
    (entries : list (string * js_value)) (now : string) (id : Z)
    (Hkeys : Forall (fun kv => count_char "?"%char (fst kv) = 0%nat) entries) :
  let (sql, values) := build_update table excluded entries now id in
  exists setClause vs,
    sql = ("UPDATE " ++ table ++ " SET " ++ setClause ++ " WHERE id = ?")%string /\
    values = vs ++ [JStr now; JNum (inject_Z id)] /\
    count_char "?"%char setClause = S (List.length vs).
Proof.
  unfold build_update.
  set (kept := filter _ entries).
  eexists; eexists; split; [reflexivity|split; [reflexivity|]].
  rewrite count_char_concat by reflexivity.
  rewrite map_app, list_sum_app, length_map; simpl.
  assert (Hk : Forall (fun kv => count_char "?"%char (fst kv) = 0%nat) kept)
    by (rewrite Forall_forall in *; intros kv Hin; apply filter_In in Hin;
        exact (Hkeys kv (proj1 Hin))).
  clear Hkeys; induction Hk as [|kv l Hkv _ IH]; simpl; [reflexivity|].
  rewrite count_char_app, Hkv; simpl; rewrite IH; reflexivity.
Qed.

(** X13: the statements of [updateFlip] and [updateLineItem] bind one value
    per placeholder: the SET clause has one [?] per value before the last
    one, the last SET value is the update time and the id goes to
    [WHERE id = ?], provided no column name contains [?]. *)
Theorem update_placeholders (now : string) (id : Z) (entries : list (string * js_value))
    (Hkeys : Forall (fun kv => count_char "?"%char (fst kv) = 0%nat) entries) :
  (let (sql, values) := updateFlip now id entries in
   exists setClause vs,
     sql = ("UPDATE flips SET " ++ setClause ++ " WHERE id = ?")%string /\
     values = vs ++ [JStr now; JNum (inject_Z id)] /\
     count_char "?"%char setClause = S (List.length vs)) /\
  (let (sql, values) := updateLineItem now id entries in
   exists setClause vs,
     sql = ("UPDATE line_items SET " ++ setClause ++ " WHERE id = ?")%string /\
     values = vs ++ [JStr now; JNum (inject_Z id)] /\
     count_char "?"%char setClause = S (List.length vs)).
Proof.
  split; [exact (build_update_shape "flips" _ entries now id Hkeys)
         |exact (build_update_shape "line_items" _ entries now id Hkeys)].
Qed.

(** *** Results of the quick-entry parser *)

Lemma drop_ws_split (l : list ascii) : exists p, l = p ++ drop_ws l.
Proof.
  induction l as [|c l [p Hp]]; simpl; [exists []; reflexivity|].
  destruct (is_ws c); [exists (c :: p); simpl; f_equal; exact Hp|exists []; reflexivity].
Qed.

Lemma drop_ws_fix (l : list ascii) :
  match l with [] => True | c :: _ => is_ws c = false end -> drop_ws l = l.
Proof. destruct l as [|c l]; simpl; [reflexivity|intros H; rewrite H; reflexivity]. Qed.

Lemma trim_idem (l : list ascii) : trim (trim l) = trim l.
Proof.
  unfold trim at 2 3.
  set (d := drop_ws l). set (e := drop_ws (rev d)).
  destruct (drop_ws_split (rev d)) as [p Hp]; fold e in Hp.
  assert (Hd : d = rev e ++ rev p)
    by (rewrite <- rev_app_distr, <- Hp, rev_involutive; reflexivity).
  assert (H1 : drop_ws (rev e) = rev e).
  { apply drop_ws_fix. pose proof (drop_ws_head l) as Hh; fold d in Hh.
    destruct (rev e) as [|c r]; [exact I|]. rewrite Hd in Hh; exact Hh. }
  unfold trim; rewrite H1, rev_involutive.
  rewrite (drop_ws_fix e (drop_ws_head (rev d))); reflexivity.
Qed.

Lemma num_le_zero_false (x : num) :
  num_le_zero x = false -> (exists q, x = Fin q /\ 0 < q) \/ x = PosInf \/ x = NaN.
Proof.
  destruct x as [q| | |]; simpl; intros H; auto; [|discriminate].
  left; exists q; split; [reflexivity|].
  apply Qnot_le_lt; intros Hq; apply Qle_bool_iff in Hq; congruence.
Qed.

Lemma finish_titled_good (a t : list ascii) (amount : num) (title : string) :
  finish_titled a t = Parsed amount title -> good_parse amount title.
Proof.
  unfold finish_titled.
  destruct (trim t) as [|c r] eqn:Et; [discriminate|].
  destruct (evaluateMath (trim a)) as [v|]; [|discriminate].
  destruct (num_le_zero v) eqn:Ev; [discriminate|].
  intros H; injection H as <- <-.
  split; [discriminate|split; [|apply num_le_zero_false, Ev]].
  change (String c (string_of_list_ascii r)) with (string_of_list_ascii (c :: r)).
  rewrite (list_ascii_of_string_of_list_ascii (c :: r)), <- Et; apply trim_idem.
Qed.

Lemma finish_simple_good (a t : list ascii) (amount : num) (title : string) :
  finish_simple a t = Parsed amount title -> good_parse amount title.
Proof.
  unfold finish_simple.
  destruct (evaluateMath (trim a)) as [v|]; [|discriminate].
  destruct (num_le_zero v) eqn:Ev; [discriminate|].
  intros H; injection H as <- <-.
  destruct (trim t) as [|c r] eqn:Et.
  - split; [discriminate|split; [reflexivity|apply num_le_zero_false, Ev]].
  - split; [discriminate|split; [|apply num_le_zero_false, Ev]].
    change (String c (string_of_list_ascii r)) with (string_of_list_ascii (c :: r)).
    rewrite (list_ascii_of_string_of_list_ascii (c :: r)), <- Et; apply trim_idem.
Qed.

(** X1: a successful parse has a non-empty title without surrounding
    whitespace, and an amount that is a positive finite number, +Infinity
    or NaN; it is never zero, negative or -Infinity. *)
Theorem parseLineItem_success (input : string) (amount : num) (title : string) :
  parseLineItem input = Parsed amount title -> good_parse amount title.
Proof.
  unfold parseLineItem.
  destruct (trim (list_ascii_of_string input)) as [|c0 r0]; [discriminate|].
  destruct (match_atoms dollarPattern (c0 :: r0)) as [[|a1 [|t1 r1]]|];
    [| |apply finish_titled_good|];
  destruct (match_atoms numberPattern (c0 :: r0)) as [[|a2 [|t2 r2]]|];
    try apply finish_titled_good;
  destruct (match_atoms simplePattern (c0 :: r0)) as [[|a3 [|t3 r3]]|];
    try apply finish_simple_good; discriminate.
Qed.

(** *** Display names *)

Lemma digits_of_nonempty (fuel : nat) (n : N) (acc : string) :
  (acc <> ""%string \/ fuel <> 0%nat) -> digits_of fuel n acc <> ""%string.
Proof.
  revert n acc; induction fuel as [|f IH]; intros n acc H; simpl.
  - destruct H as [H|H]; [exact H|congruence].
  - destruct (N.ltb n 10); [discriminate|apply IH; left; discriminate].
Qed.

Lemma Z_to_string_nonempty (z : Z) : Z_to_string z <> ""%string.
Proof.
  unfold Z_to_string; destruct (z <? 0)%Z; [discriminate|].
  apply digits_of_nonempty; right; discriminate.
Qed.

Lemma concat_nonempty (sep : string) (l : list string) :
  Forall (fun s => s <> ""%string) l -> l <> [] -> String.concat sep l <> ""%string.
Proof.
  intros Hl Hne; destruct Hl as [|x l Hx _]; [congruence|].
  destruct l as [|y l]; [exact Hx|].
  change (String.concat sep (x :: y :: l)) with (x ++ sep ++ String.concat sep (y :: l))%string.
  destruct x; [congruence|discriminate].
Qed.

Lemma str_truthy_nonempty (s : option string) (x : string) :
  str_truthy s = Some x -> x <> ""%string.
Proof. destruct s as [[|c r]|]; simpl; intros H; [discriminate|injection H as <-; discriminate|discriminate]. Qed.

(** X5: a row of the flip list is titled [Untitled Flip] exactly when year,
    make and model are all missing, 0 or empty; otherwise it shows the
    joined name. *)
Theorem home_displayName_fallback (item : Flip) :
  home_displayName item =
    match int_truthy (year item), str_truthy (make item), str_truthy (model item) with
    | None, None, None => "Untitled Flip"%string
    | _, _, _ => name_parts item
    end.
Proof.
  unfold home_displayName, or_default.
  destruct (int_truthy (year item)) as [y|] eqn:Ey;
  destruct (str_truthy (make item)) as [m|] eqn:Em;
  destruct (str_truthy (model item)) as [o|] eqn:Eo;
  unfold name_parts; rewrite Ey, Em, Eo; simpl app;
  try reflexivity;
  match goal with
  | |- match String.concat ?sep ?l with _ => _ end = _ =>
      assert (Hne : String.concat sep l <> ""%string);
      [apply concat_nonempty; [|discriminate];
       repeat constructor;
       first [apply Z_to_string_nonempty
             |exact (str_truthy_nonempty _ _ Em)
             |exact (str_truthy_nonempty _ _ Eo)]
      |destruct (String.concat sep l); [congruence|reflexivity]]
  end.
Qed.

(** *** Witnesses of the properties with hypotheses *)

Lemma parseLineItem_success_witness :
  parseLineItem "$190 - brake pads"%string = Parsed (Fin 190) "brake pads"%string /\
  good_parse (Fin 190) "brake pads"%string.
Proof.
  assert (H : parseLineItem "$190 - brake pads"%string = Parsed (Fin 190) "brake pads"%string)
    by (vm_compute; reflexivity).
  split; [exact H|exact (parseLineItem_success _ _ _ H)].
Defined.

Lemma toggleFlipSelection_spec_witness :
  NoDup [1%Z; 2%Z] /\ set_has (toggleFlipSelection [1%Z; 2%Z] 2) 2 = false.
Proof.
  assert (Hnd : NoDup [1%Z; 2%Z]).
  { apply NoDup_cons; [simpl; intros [H|[]]; discriminate H|].
    apply NoDup_cons; [intros []|apply NoDup_nil]. }
  split; [exact Hnd|].
  destruct (toggleFlipSelection_spec [1%Z; 2%Z] 2 Hnd) as [_ [H _]].
  rewrite H; reflexivity.
Defined.

Lemma createFlip_lookup_witness :
  flip_ids_below sample_store /\
  getFlipById 2 (snd (createFlip "t"%string sample_new_flip sample_store)) =
    Some (mk_flip 2 (Some 2015%Z) (Some "Honda"%string) None None None 4000 None None
                  "t"%string "t"%string).
Proof.
  assert (Hids : flip_ids_below sample_store)
    by (unfold flip_ids_below; simpl; repeat constructor; simpl; lia).
  split; [exact Hids|].
  destruct (createFlip_lookup "t"%string sample_new_flip sample_store Hids) as [_ [H _]].
  exact H.
Defined.

Lemma addLineItem_lookup_witness :
  (forall l : list LineItem, Permutation (rev l) l) /\
  List.length (getLineItemsByFlip (@rev LineItem) 1
                 (snd (addLineItem "t"%string sample_new_item sample_store))) = 5%nat.
Proof.
  assert (Horder : forall l : list LineItem, Permutation (rev l) l)
    by (intros l; apply Permutation_sym, Permutation_rev).
  split; [exact Horder|].
  destruct (addLineItem_lookup "t"%string sample_new_item sample_store (@rev LineItem) Horder)
    as [_ [_ [H _]]].
  apply Permutation_length in H.
  etransitivity; [exact H|reflexivity].
Defined.

Lemma duplicateFlip_copy_witness :
  getFlipById 1 sample_store = Some sample_flip /\
  exists newFlipId st',
    duplicateFlip (@rev LineItem) sample_clock 1 sample_store = Ok (newFlipId, st') /\
    newFlipId <> 1%Z.
Proof.
  assert (Horder : forall l : list LineItem, Permutation (rev l) l)
    by (intros l; apply Permutation_sym, Permutation_rev).
  assert (Hids : flip_ids_below sample_store)
    by (unfold flip_ids_below; simpl; repeat constructor; simpl; lia).
  assert (Hitems : item_flips_below sample_store)
    by (unfold item_flips_below; simpl; repeat constructor; simpl; lia).
  assert (Hfound : getFlipById 1 sample_store = Some sample_flip) by reflexivity.
  split; [exact Hfound|].
  destruct (duplicateFlip_copy (@rev LineItem) sample_clock 1 sample_store sample_flip
              Horder Hids Hitems Hfound) as [n [st' [H1 [H2 _]]]].
  exists n, st'; split; [exact H1|exact H2].
Defined.

Lemma update_placeholders_witness :
  Forall (fun kv => count_char "?"%char (fst kv) = 0%nat)
    [("sell_price"%string, JNum 6200); ("sold_date"%string, JStr "2025-06-01"%string)] /\
  exists setClause vs,
    fst (updateFlip "t"%string 1
           [("sell_price"%string, JNum 6200); ("sold_date"%string, JStr "2025-06-01"%string)]) =
      ("UPDATE flips SET " ++ setClause ++ " WHERE id = ?")%string /\
    snd (updateFlip "t"%string 1
           [("sell_price"%string, JNum 6200); ("sold_date"%string, JStr "2025-06-01"%string)]) =
      vs ++ [JStr "t"%string; JNum (inject_Z 1)] /\
    count_char "?"%char setClause = S (List.length vs).
Proof.
  assert (Hk : Forall (fun kv => count_char "?"%char (fst kv) = 0%nat)
    [("sell_price"%string, JNum 6200); ("sold_date"%string, JStr "2025-06-01"%string)])
    by (repeat constructor).
  split; [exact Hk|].
  destruct (update_placeholders "t"%string 1 _ Hk) as [H _].
  exact H.
Defined.

Lemma getDaysToSell_ceil_witness :
  sample_getTime "2025-03-01T00:00:00.000Z"%string = Fin (inject_Z 1740787200000) /\
  sample_getTime "2025-06-01T00:00:00.000Z"%string = Fin (inject_Z 1748736000000) /\
  exists d,
    getDaysToSell sample_getTime "2025-03-01T00:00:00.000Z"%string
      (Some "2025-06-01T00:00:00.000Z"%string) = Some (Fin (inject_Z d)) /\
    ((d - 1) * 86400000 < 1748736000000 - 1740787200000 <= d * 86400000)%Z.
Proof.
  assert (Hc : sample_getTime "2025-03-01T00:00:00.000Z"%string = Fin (inject_Z 1740787200000))
    by reflexivity.
  assert (Hs : sample_getTime "2025-06-01T00:00:00.000Z"%string = Fin (inject_Z 1748736000000))
    by reflexivity.
  split; [exact Hc|split; [exact Hs|]].
  exact (getDaysToSell_ceil sample_getTime "2025-03-01T00:00:00.000Z"%string
           (Some "2025-06-01T00:00:00.000Z"%string) "2025-06-01T00:00:00.000Z"%string
           1740787200000 1748736000000 eq_refl Hc Hs ltac:(vm_compute; reflexivity)).
Defined.
